(** * caelus-CPL: input-file interface and CML environment manager

    A shallow embedding of [caelus/io/dictfile.py] and
    [caelus/config/cmlenv.py], and the properties of these two modules
    that the design document states.

    Conventions of the embedding
    - Python [str] is [string]; Python [int] is [Z].
    - A raised exception is the [Raise] outcome of a small state-and-error
      monad; a mutation performed before the exception stays in the state,
      as in Python.
    - What the modules read from their surroundings (the file system, the
      parsed user configuration, the text parser) is gathered in a record
      that is an explicit argument of every operation. *)

From Stdlib Require Import String Ascii List ZArith Bool Lia.
From Stdlib Require Import DecimalString.
From Stdlib Require Import OrdersEx Sorted Permutation.
Import ListNotations.

Local Open Scope list_scope.
Local Open Scope string_scope.

Set Warnings "-register-all".

(* ===================================================================== *)
(** * Exceptions and the state-and-error monad *)
(* ===================================================================== *)

(** The Python exceptions the two modules can raise, with their message. *)
Inductive exn : Type :=
| IOError (msg : string)
| ValueError (msg : string)
| RuntimeError (msg : string)
| KeyError (msg : string)
| IndexError (msg : string)
| TypeError (msg : string)
| ParserError (msg : string).

Inductive outcome (A : Type) : Type :=
| Ok (a : A)
| Raise (e : exn).

Arguments Ok {A} a.
Arguments Raise {A} e.

(** A computation over a mutable state [St]: the state is returned in both
    outcomes. *)
Definition M (St A : Type) : Type := St -> outcome A * St.

Definition ret {St A} (a : A) : M St A := fun s => (Ok a, s).

Definition bind {St A B} (m : M St A) (k : A -> M St B) : M St B :=
  fun s =>
    match m s with
    | (Ok a, s') => k a s'
    | (Raise e, s') => (Raise e, s')
    end.

Definition raise {St A} (e : exn) : M St A := fun s => (Raise e, s).

Definition get_state {St} : M St St := fun s => (Ok s, s).

Definition modify {St} (f : St -> St) : M St unit := fun s => (Ok tt, f s).

Declare Scope py_scope.
Delimit Scope py_scope with py.

Notation "x <- m ;; k" := (bind m (fun x => k))
  (at level 100, m at next level, right associativity) : py_scope.
Notation "m ;;; k" := (bind m (fun _ => k))
  (at level 100, right associativity) : py_scope.

(** [for x in l: body x] *)
Fixpoint for_each {St A} (l : list A) (body : A -> M St unit) : M St unit :=
  match l with
  | [] => ret tt
  | x :: t => bind (body x) (fun _ => for_each t body)
  end.

(* ===================================================================== *)
(** * Strings *)
(* ===================================================================== *)

(** The one-character string holding the double quote (code 34). *)
Definition dquote : string := String (ascii_of_nat 34) EmptyString.

(** ['"%s"' % s] *)
Definition quoted (s : string) : string := dquote ++ s ++ dquote.

(** Python's truth value of a string. *)
Definition str_truthy (s : string) : bool :=
  match s with EmptyString => false | _ => true end.

(** [x or y] on strings where [x] may be [None]. *)
Definition str_or (x : option string) (y : string) : string :=
  match x with
  | Some s => if str_truthy s then s else y
  | None => y
  end.

Definition is_slash (c : ascii) : bool := Ascii.eqb c "/"%char.

Fixpoint has_slash (p : string) : bool :=
  match p with
  | EmptyString => false
  | String c r => is_slash c || has_slash r
  end.

Fixpoint startswith (pre s : string) : bool :=
  match pre, s with
  | EmptyString, _ => true
  | String a p, String b r => Ascii.eqb a b && startswith p r
  | String _ _, EmptyString => false
  end.

Fixpoint endswith_slash (p : string) : bool :=
  match p with
  | EmptyString => false
  | String c EmptyString => is_slash c
  | String _ r => endswith_slash r
  end.

Fixpoint all_slashes (p : string) : bool :=
  match p with
  | EmptyString => true
  | String c r => is_slash c && all_slashes r
  end.

(** [s.rstrip('/')] *)
Fixpoint rstrip_slash (p : string) : string :=
  match p with
  | EmptyString => EmptyString
  | String c r => if all_slashes p then EmptyString else String c (rstrip_slash r)
  end.

(** The text after the last ['-'] : [s.split("-")[-1]]. *)
Fixpoint split_last (sep : ascii) (s : string) : string :=
  match s with
  | EmptyString => EmptyString
  | String c r =>
      let fix has (t : string) : bool :=
        match t with
        | EmptyString => false
        | String d u => Ascii.eqb d sep || has u
        end in
      if has r then split_last sep r
      else if Ascii.eqb c sep then r else s
  end.

(** ** [posixpath] *)

Module posixpath.

(** [os.path.join(a, b)] for two components. *)
Definition join (a b : string) : string :=
  if startswith "/" b then b
  else if negb (str_truthy a) || endswith_slash a then a ++ b
  else a ++ "/" ++ b.

(** [p[i:]] for [i = p.rfind('/') + 1] *)
Fixpoint basename (p : string) : string :=
  match p with
  | EmptyString => EmptyString
  | String c r =>
      if has_slash r then basename r
      else if is_slash c then r else p
  end.

(** [p[:i]] for [i = p.rfind('/') + 1] *)
Fixpoint head (p : string) : string :=
  match p with
  | EmptyString => EmptyString
  | String c r =>
      if has_slash r then String c (head r)
      else if is_slash c then String c EmptyString else EmptyString
  end.

Definition dirname (p : string) : string :=
  let h := head p in
  if str_truthy h && negb (all_slashes h) then rstrip_slash h else h.

End posixpath.

(* ===================================================================== *)
(** * Python values and the ordered container *)
(* ===================================================================== *)

(** The values an input file holds: scalars, lists and nested containers.
    [VDict] keeps its entries in insertion order. *)
Inductive value : Type :=
| VNone
| VBool (b : bool)
| VInt (n : Z)
| VStr (s : string)
| VList (l : list value)
| VDict (d : list (string * value)).

Definition Z_of_bool (b : bool) : Z := if b then 1%Z else 0%Z.

(** Python's [==]: [bool] is a subtype of [int] ([True == 1]); sequences and
    ordered containers compare entry by entry. *)
Fixpoint py_eq (a b : value) {struct a} : bool :=
  match a, b with
  | VNone, VNone => true
  | VBool x, VBool y => Bool.eqb x y
  | VBool x, VInt y => Z.eqb (Z_of_bool x) y
  | VInt x, VBool y => Z.eqb x (Z_of_bool y)
  | VInt x, VInt y => Z.eqb x y
  | VStr x, VStr y => String.eqb x y
  | VList x, VList y =>
      (fix eq_list (l : list value) (m : list value) {struct l} : bool :=
         match l, m with
         | [], [] => true
         | u :: l', v :: m' => py_eq u v && eq_list l' m'
         | _, _ => false
         end) x y
  | VDict x, VDict y =>
      (fix eq_dict (l : list (string * value)) (m : list (string * value))
           {struct l} : bool :=
         match l, m with
         | [], [] => true
         | (k, u) :: l', (k', v) :: m' =>
             String.eqb k k' && py_eq u v && eq_dict l' m'
         | _, _ => false
         end) x y
  | _, _ => false
  end.

(** Python's truth value. *)
Definition truthy (v : value) : bool :=
  match v with
  | VNone => false
  | VBool b => b
  | VInt n => negb (Z.eqb n 0)
  | VStr s => str_truthy s
  | VList l => match l with [] => false | _ => true end
  | VDict d => match d with [] => false | _ => true end
  end.

(** [v in options] for a tuple of options. *)
Definition py_in (v : value) (options : list value) : bool :=
  existsb (fun o => py_eq o v) options.

(** ** CaelusDict *)

(** Modelled from the spec: the ordered key/value container of
    [caelus/io/caelusdict.py], which is not among the sources. The design
    document gives it as an ordered key->value map with mapping access and
    attribute-style field access ([d.key] is [d["key"]]). Entries are kept in
    insertion order; assigning an existing key replaces its value in place. *)
Module caelusdict.

Definition CaelusDict : Type := list (string * value).

Definition empty : CaelusDict := [].

(** [d.get(k, None)] as an option. *)
Fixpoint lookup (d : CaelusDict) (k : string) : option value :=
  match d with
  | [] => None
  | (k', v) :: t => if String.eqb k' k then Some v else lookup t k
  end.

(** [d.get(k, default)] *)
Definition get (d : CaelusDict) (k : string) (default : value) : value :=
  match lookup d k with Some v => v | None => default end.

(** [k in d] *)
Definition contains (d : CaelusDict) (k : string) : bool :=
  match lookup d k with Some _ => true | None => false end.

(** [d[k] = v] *)
Fixpoint set (d : CaelusDict) (k : string) (v : value) : CaelusDict :=
  match d with
  | [] => [(k, v)]
  | (k', v') :: t =>
      if String.eqb k' k then (k', v) :: t else (k', v') :: set t k v
  end.

(** [del d[k]] when present. *)
Fixpoint remove (d : CaelusDict) (k : string) : CaelusDict :=
  match d with
  | [] => []
  | (k', v') :: t =>
      if String.eqb k' k then t else (k', v') :: remove t k
  end.

(** [d.pop(k, None)]: the value (or [None]) and the container without
    the key. *)
Definition pop (d : CaelusDict) (k : string) : value * CaelusDict :=
  (get d k VNone, remove d k).

(** [CaelusDict([(k1, v1), ...])] *)
Definition of_pairs (l : list (string * value)) : CaelusDict :=
  fold_left (fun d kv => set d (fst kv) (snd kv)) l empty.

Definition keys (d : CaelusDict) : list string := map fst d.

End caelusdict.

Import caelusdict.

(* ===================================================================== *)
(** * [caelus.io.dictfile] *)
(* ===================================================================== *)

Module dictfile.

(** ** The declared properties *)

(** An entry of [_dict_properties]: the tuple [(name, default_value)] has
    [plist_options = None], the tuple [(name, default_value, valid_values)]
    has [plist_options = Some valid_values]. A default of [None] is
    [VNone]. *)
Record plist : Type := mk_plist {
  plist_name : string;
  plist_default : value;
  plist_options : option (list value)
}.

Definition prop2 (name : string) (default : value) : plist :=
  mk_plist name default None.

Definition prop3 (name : string) (default : value) (valid : list value)
  : plist :=
  mk_plist name default (Some valid).

(** The classes of the module. *)
Inductive dict_class : Type :=
| DictFile
| ControlDict
| DecomposeParDict
| TransportProperties
| TurbulenceProperties
| TurbModelProps
| RASProperties
| LESProperties.

Definition class_name (cls : dict_class) : string :=
  match cls with
  | DictFile => "DictFile"
  | ControlDict => "ControlDict"
  | DecomposeParDict => "DecomposeParDict"
  | TransportProperties => "TransportProperties"
  | TurbulenceProperties => "TurbulenceProperties"
  | TurbModelProps => "TurbModelProps"
  | RASProperties => "RASProperties"
  | LESProperties => "LESProperties"
  end.

(** The base class. *)
Definition base (cls : dict_class) : option dict_class :=
  match cls with
  | DictFile => None
  | RASProperties | LESProperties => Some TurbModelProps
  | _ => Some DictFile
  end.

Definition _default_filename (cls : dict_class) : string :=
  match cls with
  | DictFile | TurbModelProps => "dictionary"
  | ControlDict => "system/controlDict"
  | DecomposeParDict => "system/decomposeParDict"
  | TransportProperties => "constant/transportProperties"
  | TurbulenceProperties => "constant/turbulenceProperties"
  | RASProperties => "constant/RASProperties"
  | LESProperties => "constant/LESProperties"
  end.

(** [10 * (1 << 20)] *)
Definition _size_limit : Z := 10 * Z.shiftl 1 20.

Definition on_off : list value :=
  [VStr "on"; VStr "off"; VStr "yes"; VStr "no"; VBool true; VBool false].

(** [_dict_properties] where the class body declares it. *)
Definition _dict_properties (cls : dict_class) : option (list plist) :=
  match cls with
  | ControlDict => Some
      [ prop2 "application" (VStr "pisoSolver");
        prop3 "startFrom" (VStr "latestTime")
          [VStr "firstTime"; VStr "startTime"; VStr "latestTime"];
        prop2 "startTime" (VInt 0);
        prop3 "stopAt" (VStr "endTime")
          [VStr "endTime"; VStr "writeNow"; VStr "noWriteNow";
           VStr "nextWrite"];
        prop2 "endTime" VNone;
        prop2 "deltaT" VNone;
        prop3 "writeControl" (VStr "timeStep")
          [VStr "timeStep"; VStr "runTime"; VStr "adjustableRunTime";
           VStr "cpuTime"; VStr "clockTime"];
        prop2 "writeInterval" VNone;
        prop2 "purgeWrite" (VInt 0);
        prop3 "writeFormat" (VStr "ascii") [VStr "ascii"; VStr "binary"];
        prop2 "writePrecision" (VInt 6);
        prop2 "writeCompression" (VBool true);
        prop3 "timeFormat" (VStr "general")
          [VStr "fixed"; VStr "scientific"; VStr "general"];
        prop2 "timePrecision" (VInt 6);
        prop2 "graphFormat" VNone;
        prop2 "adjustTimeStep" VNone;
        prop2 "maxCo" VNone;
        prop2 "runTimeModifiable" (VBool true) ]
  | DecomposeParDict => Some
      [ prop2 "numberOfSubdomains" (VInt 4);
        prop3 "method" (VStr "scotch")
          [VStr "scotch"; VStr "metis"; VStr "simple";
           VStr "hierarchical"; VStr "manual"] ]
  | TransportProperties => Some
      [ prop2 "transportModel" (VStr "Newtonian") ]
  | TurbulenceProperties => Some
      [ prop3 "simulationType" (VStr "laminar")
          [VStr "laminar"; VStr "RASModel"; VStr "LESModel"] ]
  | TurbModelProps => Some
      [ prop3 "turbulence" (VStr "on") on_off;
        prop3 "printCoeffs" (VStr "on") on_off ]
  | DictFile | RASProperties | LESProperties => None
  end.

Definition _model_name (cls : dict_class) : string := "NONE".

(** ** Objects *)

Record obj : Type := mk_obj {
  klass : dict_class;
  filename : string;
  header : value;
  data : CaelusDict
}.

Definition set_header (h : value) (o : obj) : obj :=
  mk_obj (klass o) (filename o) h (data o).

Definition set_data (d : CaelusDict) (o : obj) : obj :=
  mk_obj (klass o) (filename o) (header o) d.

(** [self.data[k] = v] *)
Definition data_set (k : string) (v : value) : M obj unit :=
  modify (fun o => set_data (set (data o) k v) o).

(** [self.data[k]] *)
Definition data_getitem (k : string) : M obj value :=
  fun o =>
    match lookup (data o) k with
    | Some v => (Ok v, o)
    | None => (Raise (KeyError k), o)
    end.

(** [v + "Coeffs"] *)
Definition add_Coeffs (v : value) : outcome string :=
  match v with
  | VStr s => Ok (s ++ "Coeffs")
  | _ => Raise (TypeError "unsupported operand type(s) for +")
  end.

Definition lift {St A} (r : outcome A) : M St A := fun s => (r, s).

(** ** [DictMeta] *)

Local Open Scope py_scope.

(** [DictMeta.process_property]: the getter of a declared property. *)
Definition getter (p : plist) (o : obj) : value :=
  get (data o) (plist_name p) VNone.

(** Python's truth value of [options] ([None] and [()] are false). *)
Definition options_truthy (options : option (list value)) : bool :=
  match options with
  | Some (_ :: _) => true
  | _ => false
  end.

(** [DictMeta.process_property]: the setter of a property declared in
    class [cls]. *)
Definition setter (cls : dict_class) (p : plist) (v : value) : M obj unit :=
  if options_truthy (plist_options p) then
    if negb (py_in v (match plist_options p with
                      | Some l => l | None => [] end)) then
      raise (ValueError (class_name cls ++ ": Invalid option for "
                         ++ plist_name p))
    else data_set (plist_name p) v
  else data_set (plist_name p) v.

(** [DictMeta.process_defaults]: the generated [create_default_entries]. *)
Definition generated_defaults (proplist : list plist) : M obj unit :=
  for_each proplist (fun p =>
    if negb (py_eq (plist_default p) VNone)
    then data_set (plist_name p) (plist_default p)
    else ret tt).

(** ** [DictFile] *)

(** [DictFile.create_header] *)
Definition create_header (o : obj) : CaelusDict :=
  let ob := posixpath.basename (filename o) in
  let location := posixpath.dirname (filename o) in
  let default_header := of_pairs
    [ ("version", VStr "2.0");
      ("format", VStr "ascii");
      ("class", VStr "dictionary") ] in
  let default_header :=
    if str_truthy location
    then set default_header "location" (VStr (quoted location))
    else default_header in
  set default_header "object" (VStr (quoted ob)).

(** ** [TurbModelProps] *)

(** The [model] getter. *)
Definition model (o : obj) : value :=
  get (data o) (_model_name (klass o)) VNone.

(** The [coeffs] getter. *)
Definition coeffs : M obj value :=
  o <- get_state ;;
  m <- data_getitem (_model_name (klass o)) ;;
  key <- lift (add_Coeffs m) ;;
  o <- get_state ;;
  (if negb (contains (data o) key)
   then data_set key (VDict empty) else ret tt) ;;;
  data_getitem key.

(** The [model] setter. *)
Definition set_model (v : value) : M obj unit :=
  o <- get_state ;;
  data_set (_model_name (klass o)) v ;;;
  _ <- coeffs ;;
  ret tt.

(** ** [LESProperties] *)

(** The [delta] getter: [self.data.delta]. *)
Definition delta : M obj value := data_getitem "delta".

(** The [delta] setter. *)
Definition set_delta (v : value) : M obj unit :=
  data_set "delta" v ;;;
  key <- lift (add_Coeffs v) ;;
  o <- get_state ;;
  if negb (contains (data o) key) then
    let coeffs := empty in
    let coeffs :=
      if py_eq v (VStr "cubeRootVol")
      then set coeffs "deltaCoeff" (VInt 1) else coeffs in
    data_set key (VDict coeffs)
  else ret tt.

(** [create_default_entries], resolved along the base classes: the one
    [DictMeta] generates for a class that declares [_dict_properties], the
    override of [LESProperties], the empty one of [DictFile]. *)
Definition create_default_entries (cls : dict_class) : M obj unit :=
  let inherited (c : dict_class) : M obj unit :=
    match _dict_properties c with
    | Some proplist => generated_defaults proplist
    | None => ret tt
    end in
  match cls with
  | LESProperties =>
      inherited TurbModelProps ;;;
      set_delta (VStr "cubeRootVol")
  | RASProperties => inherited TurbModelProps
  | c => inherited c
  end.

(** [DictFile.__init__] *)
Definition init (cls : dict_class) (fname : option string)
  (populate_defaults : bool) : outcome obj * obj :=
  let o := mk_obj cls (str_or fname (_default_filename cls)) VNone empty in
  let o := set_header (VDict (create_header o)) o in
  (if populate_defaults then
     create_default_entries cls ;;; get_state
   else get_state) o.

(** ** Loading *)

(** What [load] reads from its surroundings: the file system and the text
    parser of [caelus/io/parser.py] (an external collaborator), which may
    fail. *)
Record world : Type := mk_world {
  path_exists : string -> bool;
  getsize : string -> Z;
  read_text : string -> outcome string;
  parse : string -> string -> bool -> outcome CaelusDict
}.

(** The effects of [load] that are visible from outside. *)
Inductive event : Type :=
| LogWarning (msg : string)
| FileRead (name : string)
| ParserCall (txt name : string) (debuglevel : bool).

Definition emit (e : event) : M (list event) unit :=
  modify (fun t => (t ++ [e])%list).

(** [DictFile.load] *)
Definition load (w : world) (cls : dict_class) (fname : option string)
  (debug : bool) : M (list event) obj :=
  let name := str_or fname (_default_filename cls) in
  if negb (path_exists w name) then
    raise (IOError ("Cannot find file: " ++ name))
  else
    r <- (if (getsize w name >? _size_limit)%Z then
            emit (LogWarning "%s size is > 5MB, will only parse header") ;;;
            ret (empty, VNone, true)
          else
            emit (FileRead name) ;;;
            txt <- lift (read_text w name) ;;
            emit (ParserCall txt name debug) ;;;
            entries <- lift (parse w txt name debug) ;;
            let (hdr, entries) := pop entries "FoamFile" in
            ret (entries, hdr, false)) ;;
    let '(entries, hdr, need_default_header) := r in
    let o := mk_obj cls name VNone empty in
    let o :=
      if truthy hdr then set_header hdr o
      else if need_default_header : bool
           then set_header (VDict (create_header o)) o
           else set_header VNone o in
    ret (set_data entries o).

(** ** Reading a file that may be missing, writing *)


Definition set_filename (n : string) (o : obj) : obj :=
  mk_obj (klass o) n (header o) (data o).

(** What [write] hands over: the record sent to the logger and the
    arguments of [printer.foam_writer(self.filename, header)] and of the
    writer it yields ([caelus/io/printer.py] is not among the sources). A
    header of [None] is [VNone]. *)
Record written : Type := mk_written {
  logged : string;
  to_file : string;
  with_header : value;
  with_data : CaelusDict
}.

(** [DictFile.write] *)
Definition write (fname : option string) (update_object write_header : bool)
  : M obj written :=
  modify (fun o => set_filename (str_or fname (filename o)) o) ;;;
  o <- get_state ;;
  let hdr :=
    if write_header then
      if update_object then VDict (create_header o) else header o
    else VNone in
  ret (mk_written ("Writing Caelus input file: " ++ filename o)
                  (filename o) hdr (data o)).

(** [DictFile.__repr__] *)
Definition repr (o : obj) : string :=
  "<" ++ class_name (klass o) ++ ": " ++ filename o ++ ">".

End dictfile.

(* ===================================================================== *)
(** * Version numbers *)
(* ===================================================================== *)

(** Modelled from the spec: the version comparison the resolver relies on,
    [distutils.version.LooseVersion] of the Python standard library, which is
    outside the repository. The design document describes it as dotted/numeric
    comparison, component by component and numeric rather than lexical. A
    version string is cut into maximal runs of digits, runs of lower-case
    letters and the text in between, the dots are dropped, and every run of
    digits becomes a number; two versions compare as the lists of their
    components. A number and a piece of text are ordered number first, as
    Python 2 does (Python 3 refuses that comparison); the two agree on
    versions made of numbers and dots. *)
Module LooseVersion.

Inductive component : Type :=
| CInt (n : Z)
| CStr (s : string).

Inductive cclass : Type := CDigit | CLower | CDot | COther.

Definition classify (c : ascii) : cclass :=
  let n := nat_of_ascii c in
  if (48 <=? n)%nat && (n <=? 57)%nat then CDigit
  else if (97 <=? n)%nat && (n <=? 122)%nat then CLower
  else if (n =? 46)%nat then CDot
  else COther.

(** Whether a character of class [k] extends a run of class [k']: each dot
    is a match of its own. *)
Definition extends (k k' : cclass) : bool :=
  match k, k' with
  | CDigit, CDigit | CLower, CLower | COther, COther => true
  | _, _ => false
  end.

(** [component_re.split(vstring)] without the empty pieces. *)
Fixpoint runs (s : string) : list (cclass * string) :=
  match s with
  | EmptyString => []
  | String c r =>
      let k := classify c in
      match runs r with
      | (k', t) :: rest =>
          if extends k k' then (k, String c t) :: rest
          else (k, String c EmptyString) :: (k', t) :: rest
      | [] => [(k, String c EmptyString)]
      end
  end.

(** [int(s)] for a run of digits. *)
Definition int_of_digits (s : string) : Z :=
  fold_left (fun acc c => (10 * acc + Z.of_nat (nat_of_ascii c - 48))%Z)
            (list_ascii_of_string s) 0%Z.

Definition is_dot (k : cclass) : bool :=
  match k with CDot => true | _ => false end.

(** The pieces that are kept: [x and x != '.']. *)
Definition not_dot (kt : cclass * string) : bool := negb (is_dot (fst kt)).

(** [LooseVersion.parse] *)
Definition parse (vstring : string) : list component :=
  map (fun kt : cclass * string =>
         match fst kt with
         | CDigit => CInt (int_of_digits (snd kt))
         | _ => CStr (snd kt)
         end)
      (filter not_dot (runs vstring)).

Record t : Type := mk {
  vstring : string;
  version : list component
}.

(** [LooseVersion(x)] *)
Definition make (x : string) : t := mk x (parse x).

Definition component_cmp (a b : component) : comparison :=
  match a, b with
  | CInt x, CInt y => Z.compare x y
  | CStr x, CStr y => String.compare x y
  | CInt _, CStr _ => Lt
  | CStr _, CInt _ => Gt
  end.

(** Comparison of two lists: the first difference decides, a proper
    prefix is smaller. *)
Fixpoint list_cmp (a b : list component) : comparison :=
  match a, b with
  | [], [] => Eq
  | [], _ :: _ => Lt
  | _ :: _, [] => Gt
  | x :: a', y :: b' =>
      match component_cmp x y with
      | Eq => list_cmp a' b'
      | c => c
      end
  end.

(** [LooseVersion._cmp] *)
Definition cmp (a b : t) : comparison := list_cmp (version a) (version b).

(** [a < b] *)
Definition lt (a b : t) : bool :=
  match cmp a b with Lt => true | _ => false end.

(** Insertion of [x] after the elements that are not smaller than it. *)
Fixpoint insert_desc (x : t) (l : list t) : list t :=
  match l with
  | [] => [x]
  | y :: r => if lt y x then x :: l else y :: insert_desc x r
  end.

(** [sorted(l, reverse=True)]: descending, elements that compare equal in
    their original order. *)
Definition sorted_reverse (l : list t) : list t :=
  fold_left (fun acc x => insert_desc x acc) l [].

End LooseVersion.

(* ===================================================================== *)
(** * [caelus.config.cmlenv] *)
(* ===================================================================== *)

(** [itertools.product] of four lists: the last one varies fastest. *)
Definition product4 {A B C D} (la : list A) (lb : list B) (lc : list C)
  (ld : list D) : list (A * B * C * D) :=
  flat_map (fun a =>
    flat_map (fun b =>
      flat_map (fun c =>
        map (fun d => (a, b, c, d)) ld) lc) lb) la.

Module cmlenv.

Local Open Scope py_scope.

(** A scalar of the YAML configuration. *)
Inductive scalar : Type :=
| SStr (s : string)
| SInt (n : Z)
| SBool (b : bool).

(** [str(v)] *)
Definition py_str (v : scalar) : string :=
  match v with
  | SStr s => s
  | SInt n => NilZero.string_of_int (Z.to_int n)
  | SBool true => "True"
  | SBool false => "False"
  end.

(** An entry of the user's [versions] list as the configuration file gives
    it: [raw_version] is [None] when the key is absent or null. *)
Record raw_cfg : Type := mk_raw {
  raw_version : option scalar;
  raw_path : option string;
  raw_platform_install : option string
}.

(** A [CaelusCfg] whose version is a string: what
    [_filter_invalid_versions] yields after [ver.version = str(vid)] and
    what [discover_versions] builds. *)
Record CaelusCfg : Type := mk_cfg {
  cfg_version : string;
  cfg_path : option string;
  cfg_platform_install : option string
}.

(** What the module reads from its surroundings: [get_caelus_root()] and
    the two entries of [get_config().caelus.caelus_cml] (both functions
    live in [caelus/config/config.py], not among the sources), the file
    system through [os.path.exists] and [glob.glob], and
    [os.uname()[0].lower()] (or ["windows"]). Paths are POSIX paths. *)
Record world : Type := mk_world {
  caelus_root : string;
  versions : list raw_cfg;
  default_version : option string;
  path_exists : string -> bool;
  glob : string -> list string;
  ostype : string
}.

(** [discover_versions] *)
Definition discover_versions (w : world) (root : option string)
  : list CaelusCfg :=
  let path_to_cfg (caelus_dirs : list string) : list CaelusCfg :=
    map (fun cpath =>
           let bname := posixpath.basename cpath in
           let version := split_last "-"%char bname in
           mk_cfg version (Some cpath) None)
        caelus_dirs in
  let rpath := str_or root (caelus_root w) in
  let cdirs := glob w (posixpath.join rpath "caelus-*") in
  path_to_cfg cdirs.

(** [_filter_invalid_versions] *)
Fixpoint _filter_invalid_versions (w : world) (cml_cfg : list raw_cfg)
  : list CaelusCfg :=
  let root_default := caelus_root w in
  match cml_cfg with
  | [] => []
  | ver :: rest =>
      match raw_version ver with
      | None => _filter_invalid_versions w rest
      | Some vid =>
          let pdir :=
            match raw_path ver with
            | Some p => p
            | None => posixpath.join root_default ("caelus-" ++ py_str vid)
            end in
          if path_exists w pdir
          then mk_cfg (py_str vid) (raw_path ver) (raw_platform_install ver)
               :: _filter_invalid_versions w rest
          else _filter_invalid_versions w rest
      end
  end.

Definition arch_types : list string := ["64"; "32"].
Definition compilers : list string := ["g++"; "icpc"; "clang++"].
Definition prec_types : list string := ["DP"; "SP"].
Definition opt_types : list string := ["Opt"; "Prof"; "Debug"].

(** The name built in the loop body of [_determine_platform_dir]. *)
Definition bdir_name (ostype : string) (c : string * string * string * string)
  : string :=
  let '(at_, pt, ot, ct) := c in
  ostype ++ at_ ++ ct ++ pt ++ ot.

(** The paths the loop of [_determine_platform_dir] tests, in its order. *)
Definition candidates (ostype basepath : string) : list string :=
  map (fun c => posixpath.join basepath (bdir_name ostype c))
      (product4 arch_types prec_types opt_types compilers).

(** [_determine_platform_dir] *)
Definition _determine_platform_dir (w : world) (root_path : string)
  : option string :=
  let basepath := posixpath.join root_path "platforms" in
  if negb (path_exists w basepath) then None
  else find (path_exists w) (candidates (ostype w) basepath).

Record CMLEnv : Type := mk_env {
  _cfg : CaelusCfg;
  _version : string;
  _project_dir : string;
  _root_dir : string;
  _build_dir : string
}.

Inductive log_record : Type :=
| LogDebug (msg : string)
| LogWarn (msg : string).

(** The state of the closure of [_cml_env_mgr], and the records the module
    logger has received. *)
Record mgr : Type := mk_mgr {
  cml_versions : list (string * CMLEnv);
  did_init : bool;
  log : list log_record
}.

Definition mgr0 : mgr := mk_mgr [] false [].

Definition emit (r : log_record) : M mgr unit :=
  modify (fun s => mk_mgr (cml_versions s) (did_init s) (log s ++ [r])%list).

(** [CMLEnv.__init__] *)
Definition CMLEnv_init (w : world) (cfg : CaelusCfg) : M mgr CMLEnv :=
  let version := cfg_version cfg in
  let project_dir :=
    match cfg_path cfg with
    | Some p => p
    | None => posixpath.join (caelus_root w) ("caelus-" ++ version)
    end in
  let root_dir := posixpath.dirname project_dir in
  let build_dir :=
    match cfg_platform_install cfg with
    | Some b => Some b
    | None => _determine_platform_dir w project_dir
    end in
  match build_dir with
  | Some b =>
      if str_truthy b then ret (mk_env cfg version project_dir root_dir b)
      else
        emit (LogDebug ("Cannot find platform directory: " ++ project_dir)) ;;;
        ret (mk_env cfg version project_dir root_dir "")
  | None =>
      emit (LogDebug ("Cannot find platform directory: " ++ project_dir)) ;;;
      ret (mk_env cfg version project_dir root_dir "")
  end.

(** [d[k] = v] on the registry: a present key keeps its place. *)
Fixpoint dict_set (d : list (string * CMLEnv)) (k : string) (v : CMLEnv)
  : list (string * CMLEnv) :=
  match d with
  | [] => [(k, v)]
  | (k', v') :: r =>
      if String.eqb k' k then (k', v) :: r else (k', v') :: dict_set r k v
  end.

Fixpoint dict_get (d : list (string * CMLEnv)) (k : string) : option CMLEnv :=
  match d with
  | [] => None
  | (k', v) :: r => if String.eqb k' k then Some v else dict_get r k
  end.

Definition nonempty {A} (l : list A) : bool :=
  match l with [] => false | _ => true end.

(** [cml_versions[cenv.version] = cenv] *)
Definition register (cenv : CMLEnv) : M mgr unit :=
  modify (fun s => mk_mgr (dict_set (cml_versions s) (_version cenv) cenv)
                          (did_init s) (log s)).

(** [cml_versions[k]] *)
Definition registry_getitem (k : string) : M mgr CMLEnv :=
  fun s =>
    match dict_get (cml_versions s) k with
    | Some e => (Ok e, s)
    | None => (Raise (KeyError k), s)
    end.

Definition no_valid_versions : string :=
  "No valid versions provided; check configuration file."
  ++ " Attempting to discover installed versions.".

(** [_init_cml_versions] *)
Definition _init_cml_versions (w : world) : M mgr unit :=
  let cml_opts := versions w in
  (if nonempty cml_opts then
     let cml_filtered := _filter_invalid_versions w cml_opts in
     (if nonempty cml_opts && negb (nonempty cml_filtered)
      then emit (LogWarn no_valid_versions) else ret tt) ;;;
     for_each cml_filtered (fun cml =>
       cenv <- CMLEnv_init w cml ;;
       register cenv)
   else
     let cml_discovered := discover_versions w None in
     for_each cml_discovered (fun cml =>
       cenv <- CMLEnv_init w cml ;;
       register cenv)) ;;;
  modify (fun s => mk_mgr (cml_versions s) true (log s)).

(** The first statement of both accessors. *)
Definition init_or_fail (w : world) : M mgr unit :=
  s <- get_state ;;
  if negb (nonempty (cml_versions s)) && did_init s
  then raise (RuntimeError "No valid Caelus CML versions found")
  else _init_cml_versions w.

(** [_get_latest_version] *)
Definition _get_latest_version (w : world) : M mgr CMLEnv :=
  init_or_fail w ;;;
  s <- get_state ;;
  let vkeys := map LooseVersion.make (map fst (cml_versions s)) in
  let vlist := LooseVersion.sorted_reverse vkeys in
  match vlist with
  | [] => raise (IndexError "list index out of range")
  | v :: _ => registry_getitem (LooseVersion.vstring v)
  end.

(** [_get_version] *)
Definition _get_version (w : world) (version : option string)
  : M mgr CMLEnv :=
  init_or_fail w ;;;
  let vkey :=
    str_or version
           (match default_version w with Some d => d | None => "" end) in
  if String.eqb vkey "latest" then _get_latest_version w
  else
    s <- get_state ;;
    if negb (match dict_get (cml_versions s) vkey with
             | Some _ => true | None => false end)
    then raise (KeyError "Invalid CML version requested")
    else registry_getitem vkey.

(** ** The properties of [CMLEnv] *)

Definition root (e : CMLEnv) : string := _root_dir e.
Definition project_dir (e : CMLEnv) : string := _project_dir e.
Definition version (e : CMLEnv) : string := _version e.

(** [CMLEnv.build_dir] *)
Definition build_dir (w : world) (e : CMLEnv) : outcome string :=
  if negb (str_truthy (_build_dir e)) || negb (path_exists w (_build_dir e))
  then Raise (IOError ("Cannot find Caelus platform directory: "
                       ++ _build_dir e))
  else Ok (_build_dir e).

(** [CMLEnv.bin_dir] *)
Definition bin_dir (w : world) (e : CMLEnv) : outcome string :=
  match build_dir w e with
  | Ok b => Ok (posixpath.join b "bin")
  | Raise x => Raise x
  end.

(** [CMLEnv.lib_dir] *)
Definition lib_dir (w : world) (e : CMLEnv) : outcome string :=
  match build_dir w e with
  | Ok b => Ok (posixpath.join b "lib")
  | Raise x => Raise x
  end.

End cmlenv.

(* ===================================================================== *)
(** * [caelus.version] *)
(* ===================================================================== *)

(** [try: body finally: fin] *)
Definition try_finally {St A} (body : M St A) (fin : M St unit) : M St A :=
  fun s =>
    match body s with
    | (r, s') =>
        match fin s' with
        | (Ok _, s'') => (r, s'')
        | (Raise e, s'') => (Raise e, s'')
        end
    end.

Module version.

Local Open Scope py_scope.

Definition _basic_version : string := "v0.0.2".

(** What [git_describe] meets outside: the directory of the module file
    ([os.path.dirname(__file__)]), the directories [os.chdir] can enter, and
    the outcome of running a command in a directory: its exit status and
    standard output, or the error of a command that cannot be started. *)
Record world : Type := mk_world {
  module_dir : string;
  can_enter : string -> bool;
  run : string -> list string -> outcome (Z * string)
}.

(** [os.chdir(d)] on the current directory of the process. *)
Definition chdir (w : world) (d : string) : M string unit :=
  fun cwd =>
    if can_enter w d then (Ok tt, d)
    else (Raise (IOError ("No such file or directory: " ++ d)), cwd).

Definition is_space (c : ascii) : bool :=
  let n := nat_of_ascii c in
  ((9 <=? n)%nat && (n <=? 13)%nat) || (n =? 32)%nat.

Fixpoint lstrip (s : string) : string :=
  match s with
  | EmptyString => EmptyString
  | String c r => if is_space c then lstrip r else s
  end.

Fixpoint all_space (s : string) : bool :=
  match s with
  | EmptyString => true
  | String c r => is_space c && all_space r
  end.

Fixpoint rstrip (s : string) : string :=
  match s with
  | EmptyString => EmptyString
  | String c r => if all_space s then EmptyString else String c (rstrip r)
  end.

(** [out.strip()] *)
Definition strip (s : string) : string := rstrip (lstrip s).

Fixpoint is_ascii (s : string) : bool :=
  match s with
  | EmptyString => true
  | String c r => (nat_of_ascii c <? 128)%nat && is_ascii r
  end.

(** [b.decode('ascii')]; [UnicodeDecodeError] is a [ValueError]. *)
Definition decode_ascii (b : string) : outcome string :=
  if is_ascii b then Ok b
  else Raise (ValueError "'ascii' codec can't decode byte").

(** [shlex.split("git describe --tags --dirty")] *)
Definition cmd : list string := ["git"; "describe"; "--tags"; "--dirty"].

(** [git_describe]; the state is the current directory of the process. *)
Definition git_describe (w : world) : M string string :=
  let dirname := module_dir w in
  cwd <- get_state ;;
  try_finally
    (chdir w dirname ;;;
     here <- get_state ;;
     task <- dictfile.lift (run w here cmd) ;;
     let '(status, out) := task in
     let git_ver := _basic_version in
     if (status =? 0)%Z then dictfile.lift (decode_ascii (strip out))
     else ret git_ver)
    (chdir w cwd).

End version.

(* ===================================================================== *)
(** * The statements of the design document *)
(* ===================================================================== *)

(** These definitions follow the words of the design document, not the
    code; the theorems compare the code with them. *)
Module design.

(** Component-wise numeric comparison of two dotted versions given as the
    lists of their numbers: the first differing number decides, and a version
    that is a proper prefix of another one is the smaller. *)
Fixpoint numeric_cmp (a b : list Z) : comparison :=
  match a, b with
  | [], [] => Eq
  | [], _ :: _ => Lt
  | _ :: _, [] => Gt
  | x :: a', y :: b' =>
      match (x ?= y)%Z with
      | Eq => numeric_cmp a' b'
      | c => c
      end
  end.

Definition is_digit (c : ascii) : bool :=
  (48 <=? nat_of_ascii c)%nat && (nat_of_ascii c <=? 57)%nat.

Definition is_dot (c : ascii) : bool := Ascii.eqb c "."%char.

(** The pieces of a string between its dots. *)
Fixpoint split_dots (s : string) : list string :=
  match s with
  | EmptyString => [EmptyString]
  | String c r =>
      if is_dot c then EmptyString :: split_dots r
      else match split_dots r with
           | p :: ps => String c p :: ps
           | [] => [String c EmptyString]
           end
  end.

Fixpoint only_digits (p : string) : bool :=
  match p with
  | EmptyString => true
  | String c r => is_digit c && only_digits r
  end.

(** The number a string of decimal digits denotes. *)
Fixpoint decimal_from (acc : Z) (p : string) : Z :=
  match p with
  | EmptyString => acc
  | String c r =>
      decimal_from (10 * acc + Z.of_nat (nat_of_ascii c - 48))%Z r
  end.

Definition decimal (p : string) : Z := decimal_from 0%Z p.

(** The numbers of a dotted version id such as ["4.10"]: every piece
    between the dots is a non-empty string of digits. [None] for any other
    string. *)
Definition dotted_numbers (s : string) : option (list Z) :=
  if forallb (fun p => str_truthy p && only_digits p) (split_dots s)
  then Some (map decimal (split_dots s))
  else None.

(** Lexical comparison of two version strings, character by character. *)
Definition lexical_cmp (a b : string) : comparison := String.compare a b.

(** The build-directory names in the order of the search: architecture
    [64, 32] outermost, then precision [DP, SP], then optimization
    [Opt, Prof, Debug], then compiler [g++, icpc, clang++] innermost; each
    name is architecture, compiler, precision, optimization, to be preceded
    by the operating system. *)
Definition probe_order : list string :=
  [ "64g++DPOpt"; "64icpcDPOpt"; "64clang++DPOpt";
    "64g++DPProf"; "64icpcDPProf"; "64clang++DPProf";
    "64g++DPDebug"; "64icpcDPDebug"; "64clang++DPDebug";
    "64g++SPOpt"; "64icpcSPOpt"; "64clang++SPOpt";
    "64g++SPProf"; "64icpcSPProf"; "64clang++SPProf";
    "64g++SPDebug"; "64icpcSPDebug"; "64clang++SPDebug";
    "32g++DPOpt"; "32icpcDPOpt"; "32clang++DPOpt";
    "32g++DPProf"; "32icpcDPProf"; "32clang++DPProf";
    "32g++DPDebug"; "32icpcDPDebug"; "32clang++DPDebug";
    "32g++SPOpt"; "32icpcSPOpt"; "32clang++SPOpt";
    "32g++SPProf"; "32icpcSPProf"; "32clang++SPProf";
    "32g++SPDebug"; "32icpcSPDebug"; "32clang++SPDebug" ].

End design.

(** The numbers of a version all of whose components are numbers. *)
Fixpoint numbers (v : list LooseVersion.component) : option (list Z) :=
  match v with
  | [] => Some []
  | LooseVersion.CInt n :: r =>
      match numbers r with
      | Some l => Some (n :: l)
      | None => None
      end
  | LooseVersion.CStr _ :: _ => None
  end.

(** [a] is not smaller than [b]. *)
Definition not_below (a b : LooseVersion.t) : Prop :=
  LooseVersion.lt a b = false.

(** The larger of two versions, the first one on a tie. *)
Definition pick (h x : LooseVersion.t) : LooseVersion.t :=
  if LooseVersion.lt h x then x else h.

(** The invariant of the registry: every key is the version of the
    environment stored under it, and no key occurs twice. *)
Definition registry_wf (d : list (string * cmlenv.CMLEnv)) : Prop :=
  Forall (fun kv => cmlenv._version (snd kv) = fst kv) d
  /\ NoDup (map fst d).

(** The environment [CMLEnv.__init__] builds, without the log record. *)
Definition env_of (w : cmlenv.world) (cfg : cmlenv.CaelusCfg)
  : cmlenv.CMLEnv :=
  match fst (cmlenv.CMLEnv_init w cfg cmlenv.mgr0) with
  | Ok e => e
  | Raise _ => cmlenv.mk_env cfg "" "" "" ""
  end.

(** The entries the population step registers: the configured ones that
    pass the filter or, when nothing is configured, the discovered ones. *)
Definition population_source (w : cmlenv.world) : list cmlenv.CaelusCfg :=
  if cmlenv.nonempty (cmlenv.versions w)
  then cmlenv._filter_invalid_versions w (cmlenv.versions w)
  else cmlenv.discover_versions w None.

(** The registry after the environments of a list of entries have been
    stored in it, one after the other. *)
Definition register_all (w : cmlenv.world) (cfgs : list cmlenv.CaelusCfg)
  (d : list (string * cmlenv.CMLEnv)) : list (string * cmlenv.CMLEnv) :=
  fold_left (fun d c => cmlenv.dict_set d (cmlenv.cfg_version c) (env_of w c))
            cfgs d.

(** Whether one of the entries has version [k]. *)
Definition names_version (k : string) (cfgs : list cmlenv.CaelusCfg) : bool :=
  existsb (fun c => String.eqb (cmlenv.cfg_version c) k) cfgs.

Fixpoint no_char (c : ascii) (s : string) : bool :=
  match s with
  | EmptyString => true
  | String d r => negb (Ascii.eqb d c) && no_char c r
  end.

(* ===================================================================== *)
(** * Sample surroundings *)
(* ===================================================================== *)

(** Concrete file systems and configurations on which the operations are
    evaluated below. *)
Module samples.

(** A case directory whose [system/controlDict] is a small file without a
    [FoamFile] block. *)
Definition plain_controlDict : dictfile.world :=
  dictfile.mk_world
    (fun p => String.eqb p "system/controlDict")
    (fun _ => 64%Z)
    (fun _ => Ok "application pisoSolver;")
    (fun _ _ _ => Ok [("application", VStr "pisoSolver")]).

(** A field file of 10 MiB and one byte, which cannot be read and on which
    the parser would fail. *)
Definition oversize_field : dictfile.world :=
  dictfile.mk_world
    (fun p => String.eqb p "0/U")
    (fun _ => 10485761%Z)
    (fun _ => Raise (IOError "Permission denied"))
    (fun _ _ _ => Raise (ParserError "syntax error")).

(** A file system given by the list of the paths that exist. *)
Definition fs_of (paths : list string) (p : string) : bool :=
  existsb (String.eqb p) paths.

(** [glob] on such a file system, for the one pattern [root/caelus-*]. *)
Definition glob_of (root : string) (paths : list string) (pattern : string)
  : list string :=
  if String.eqb pattern (posixpath.join root "caelus-*")
  then filter (startswith (posixpath.join root "caelus-")) paths
  else [].

(** A machine with the installations [dirs] under [/opt/Caelus], and the
    configured version entries [cfg]. *)
Definition machine (cfg : list cmlenv.raw_cfg) (dirs : list string)
  (others : list string) : cmlenv.world :=
  cmlenv.mk_world "/opt/Caelus" cfg None
    (fs_of ("/opt/Caelus" :: dirs ++ others)%list)
    (glob_of "/opt/Caelus" dirs) "linux".

(** Nothing configured, nothing installed. *)
Definition no_install : cmlenv.world := machine [] [] [].

(** One version on disk, then a second one next to it. *)
Definition one_install : cmlenv.world :=
  machine [] ["/opt/Caelus/caelus-1.0"] [].

Definition two_installs : cmlenv.world :=
  machine [] ["/opt/Caelus/caelus-1.0"; "/opt/Caelus/caelus-2.0"] [].

(** The configuration names a version whose directory is gone, while
    version 5.0 is installed in the default root. *)
Definition stale_config : cmlenv.world :=
  machine [cmlenv.mk_raw (Some (cmlenv.SStr "9.9"))
             (Some "/scratch/caelus-9.9") None]
          ["/opt/Caelus/caelus-5.0"] [].

(** Versions 4.10, 5.0 and 42.0 configured and installed; 4.10 has three
    build directories. *)
Definition three_versions : cmlenv.world :=
  machine [cmlenv.mk_raw (Some (cmlenv.SStr "4.10")) None None;
           cmlenv.mk_raw (Some (cmlenv.SStr "5.0")) None None;
           cmlenv.mk_raw (Some (cmlenv.SStr "42.0")) None None]
          ["/opt/Caelus/caelus-4.10"; "/opt/Caelus/caelus-5.0";
           "/opt/Caelus/caelus-42.0"]
          ["/opt/Caelus/caelus-4.10/platforms";
           "/opt/Caelus/caelus-4.10/platforms/linux32icpcSPDebug";
           "/opt/Caelus/caelus-4.10/platforms/linux64g++DPOpt";
           "/opt/Caelus/caelus-4.10/platforms/linux64icpcDPOpt"].

(** A source tree in [/src/caelus] where [git describe] answers with a tag
    and a newline; the process runs in [/work]. *)
Definition tagged_tree : version.world :=
  version.mk_world "/src/caelus"
    (fun d => String.eqb d "/src/caelus" || String.eqb d "/work")
    (fun here _ =>
       if String.eqb here "/src/caelus"
       then Ok (0%Z, "v0.1.0-3-gabc1234" ++ String (ascii_of_nat 10) EmptyString)
       else Ok (128%Z, EmptyString)).


(** A case directory whose [constant/RASProperties] has a header block of
    class [dictionary] and a model entry. *)
Definition cased_RASProperties : dictfile.world :=
  dictfile.mk_world
    (fun p => String.eqb p "constant/RASProperties")
    (fun _ => 512%Z)
    (fun _ => Ok "FoamFile { class dictionary; } NONE kEpsilon;")
    (fun _ _ _ =>
       Ok [("FoamFile", VDict [("class", VStr "dictionary")]);
           ("NONE", VStr "kEpsilon")]).

(** A file that is there, small, and on which the parser fails. *)
Definition unparsable : dictfile.world :=
  dictfile.mk_world (fun _ => true) (fun _ => 10%Z)
    (fun _ => Ok "a { b")
    (fun _ _ _ => Raise (ParserError "unexpected end of file")).

(** Version 5.0 configured twice: under the default root and in
    [/scratch]. *)
Definition twice_configured : cmlenv.world :=
  machine [cmlenv.mk_raw (Some (cmlenv.SStr "5.0")) None None;
           cmlenv.mk_raw (Some (cmlenv.SStr "5.0"))
             (Some "/scratch/caelus-5.0") None]
          ["/opt/Caelus/caelus-5.0"] ["/scratch/caelus-5.0"].

End samples.

(* ===================================================================== *)
(** * Facts about strings and the ordered container *)
(* ===================================================================== *)

Section ContainerFacts.

Implicit Types (d : CaelusDict) (k : string) (v : value).

Lemma lookup_set_same d k v : lookup (set d k v) k = Some v.
Proof.
  induction d as [|[k' v'] d IH]; simpl.
  - now rewrite String.eqb_refl.
  - destruct (String.eqb k' k) eqn:E; simpl; rewrite E; auto.
Qed.

Lemma lookup_set_other d k k' v :
  k' <> k -> lookup (set d k v) k' = lookup d k'.
Proof.
  intros Hne. induction d as [|[k0 v0] d IH]; simpl.
  - destruct (String.eqb k k') eqn:E; auto.
    apply String.eqb_eq in E. congruence.
  - destruct (String.eqb k0 k) eqn:E; simpl.
    + apply String.eqb_eq in E. subst k0.
      destruct (String.eqb k k') eqn:E'; auto.
      apply String.eqb_eq in E'. congruence.
    + now rewrite IH.
Qed.

Lemma get_set_same d k v default : get (set d k v) k default = v.
Proof. unfold get. now rewrite lookup_set_same. Qed.

Lemma contains_set_same d k v : contains (set d k v) k = true.
Proof. unfold contains. now rewrite lookup_set_same. Qed.

Lemma remove_absent d k : lookup d k = None -> remove d k = d.
Proof.
  induction d as [|[k' v'] d IH]; simpl; auto.
  destruct (String.eqb k' k); [discriminate|].
  intros H. now rewrite IH.
Qed.

Lemma contains_false_lookup d k : contains d k = false -> lookup d k = None.
Proof. unfold contains. now destruct (lookup d k). Qed.

Lemma lookup_None_contains d k : lookup d k = None -> contains d k = false.
Proof. unfold contains. now intros ->. Qed.

End ContainerFacts.

Lemma string_length_append (a b : string) :
  String.length (a ++ b) = String.length a + String.length b.
Proof. induction a; simpl; auto. Qed.

(** Two ways of cutting a string before a suffix of the same length
    agree. *)
Lemma append_inj_suffix (a b s t : string) :
  String.length s = String.length t -> a ++ s = b ++ t -> a = b /\ s = t.
Proof.
  intros Hlen. revert b.
  induction a as [|c a IH]; intros [|c' b] H; simpl in H.
  - now split.
  - apply (f_equal String.length) in H. simpl in H.
    rewrite string_length_append in H. lia.
  - apply (f_equal String.length) in H. simpl in H.
    rewrite string_length_append in H. lia.
  - injection H as -> H. destruct (IH b H) as [-> ->]. now split.
Qed.

(* ===================================================================== *)
(** * Properties of [caelus.io.dictfile] *)
(* ===================================================================== *)

Section DictfileProperties.

Import dictfile.

(** ** The generated accessors *)

(** A setter that validates either stores the value or raises; which one
    is decided by membership alone. *)
Lemma setter_unfold cls p opts v o :
  plist_options p = Some opts -> opts <> [] ->
  setter cls p v o =
    if py_in v opts
    then (Ok tt, set_data (set (data o) (plist_name p) v) o)
    else (Raise (ValueError (class_name cls ++ ": Invalid option for "
                             ++ plist_name p)), o).
Proof.
  intros Hopts Hne. unfold setter. rewrite Hopts.
  destruct opts as [|x opts]; [congruence|]. simpl options_truthy. cbv iota.
  destruct (py_in v (x :: opts)); reflexivity.
Qed.

End DictfileProperties.

(** C5, as amended. For every declared property whose tuple of valid values
    is present and not empty: the setter called with a value of the tuple
    stores it, the getter then returns exactly that value and no other key of
    the data changes; called with a value outside the tuple it raises
    [ValueError] and leaves the object, and so its data, as it was. *)
Theorem setter_validates_nonempty_options
    (cls : dictfile.dict_class) (p : dictfile.plist) (opts : list value)
    (v : value) (o : dictfile.obj) :
  dictfile.plist_options p = Some opts ->
  opts <> [] ->
  (py_in v opts = true ->
     exists o',
       dictfile.setter cls p v o = (Ok tt, o')
       /\ dictfile.getter p o' = v
       /\ (forall k, k <> dictfile.plist_name p ->
             lookup (dictfile.data o') k = lookup (dictfile.data o) k)
       /\ dictfile.header o' = dictfile.header o
       /\ dictfile.filename o' = dictfile.filename o)
  /\ (py_in v opts = false ->
        exists msg, dictfile.setter cls p v o = (Raise (ValueError msg), o)).
Proof.
  intros Hopts Hne.
  rewrite (setter_unfold cls p opts v o Hopts Hne).
  split; intros Hin; rewrite Hin.
  - eexists. split; [reflexivity|].
    unfold dictfile.getter. simpl.
    split; [apply get_set_same|].
    split; [|split; reflexivity].
    intros k Hk. now apply lookup_set_other.
  - eexists. reflexivity.
Qed.

(** The [writeFormat] property of [ControlDict], with its two valid values,
    on a freshly built object: ["binary"] is stored, ["xml"] is refused. *)
Lemma setter_validates_nonempty_options_witness :
  let p := dictfile.prop3 "writeFormat" (VStr "ascii")
             [VStr "ascii"; VStr "binary"] in
  let o := snd (dictfile.init dictfile.ControlDict None true) in
  (exists o',
     dictfile.setter dictfile.ControlDict p (VStr "binary") o = (Ok tt, o')
     /\ dictfile.getter p o' = VStr "binary")
  /\ (exists msg,
        dictfile.setter dictfile.ControlDict p (VStr "xml") o
        = (Raise (ValueError msg), o)).
Proof.
  intros p o.
  destruct (setter_validates_nonempty_options dictfile.ControlDict p
              [VStr "ascii"; VStr "binary"] (VStr "binary") o eq_refl
              ltac:(discriminate)) as [Hin _].
  destruct (setter_validates_nonempty_options dictfile.ControlDict p
              [VStr "ascii"; VStr "binary"] (VStr "xml") o eq_refl
              ltac:(discriminate)) as [_ Hout].
  split.
  - destruct (Hin eq_refl) as (o' & H1 & H2 & _). exists o'. now split.
  - exact (Hout eq_refl).
Defined.

(** C5, the claim as stated fails: a property declared with an empty tuple
    of valid values has a non-null allowed set, every value is outside it,
    and yet the setter stores the value instead of raising. *)
Lemma setter_empty_options_counterexample :
  let p := dictfile.prop3 "writeFormat" (VStr "ascii") [] in
  let o := dictfile.mk_obj dictfile.ControlDict "system/controlDict"
             VNone empty in
  dictfile.plist_options p <> None
  /\ py_in (VStr "binary") [] = false
  /\ dictfile.setter dictfile.ControlDict p (VStr "binary") o
     = (Ok tt, dictfile.set_data [("writeFormat", VStr "binary")] o)
  /\ dictfile.data
       (snd (dictfile.setter dictfile.ControlDict p (VStr "binary") o))
     <> dictfile.data o.
Proof.
  simpl. repeat split; try discriminate.
Qed.


Section LoadProperties.

Import dictfile.

Lemma create_header_fixed (o : obj) :
  lookup (create_header o) "version" = Some (VStr "2.0")
  /\ lookup (create_header o) "format" = Some (VStr "ascii")
  /\ lookup (create_header o) "class" = Some (VStr "dictionary")
  /\ lookup (create_header o) "object"
     = Some (VStr (quoted (posixpath.basename (filename o))))
  /\ lookup (create_header o) "location"
     = (if str_truthy (posixpath.dirname (filename o))
        then Some (VStr (quoted (posixpath.dirname (filename o))))
        else None).
Proof.
  unfold create_header.
  destruct (str_truthy (posixpath.dirname (filename o)));
    repeat split; reflexivity.
Qed.

Lemma pop_absent (d : CaelusDict) (k : string) :
  contains d k = false -> pop d k = (VNone, d).
Proof.
  intros H. apply contains_false_lookup in H. unfold pop, get.
  now rewrite H, remove_absent.
Qed.

End LoadProperties.

(** C8. For every existing file whose size exceeds [_size_limit] (10 MiB),
    whatever reading the file or parsing it would do, [load] raises nothing:
    it returns an object with empty data and a header built by
    [create_header] (the constants [version], [format], [class], the quoted
    basename as [object], and the quoted directory as [location] when there is
    one); the only effect is one warning record, so the file is not read and
    the parser is not called. *)
Theorem load_oversize_returns_default
    (w : dictfile.world) (cls : dictfile.dict_class) (fname : option string)
    (debug : bool) (name : string) (trace : list dictfile.event) :
  name = str_or fname (dictfile._default_filename cls) ->
  dictfile.path_exists w name = true ->
  (dictfile.getsize w name > 10 * 1024 * 1024)%Z ->
  exists hdr,
    dictfile.load w cls fname debug trace
    = (Ok (dictfile.mk_obj cls name (VDict hdr) empty),
       (trace ++ [dictfile.LogWarning
                    "%s size is > 5MB, will only parse header"])%list)
    /\ lookup hdr "version" = Some (VStr "2.0")
    /\ lookup hdr "format" = Some (VStr "ascii")
    /\ lookup hdr "class" = Some (VStr "dictionary")
    /\ lookup hdr "object" = Some (VStr (quoted (posixpath.basename name)))
    /\ lookup hdr "location"
       = (if str_truthy (posixpath.dirname name)
          then Some (VStr (quoted (posixpath.dirname name))) else None).
Proof.
  intros Hname Hex Hsize.
  exists (dictfile.create_header (dictfile.mk_obj cls name VNone empty)).
  split; [|apply (create_header_fixed (dictfile.mk_obj cls name VNone empty))].
  unfold dictfile.load. rewrite <- Hname, Hex. simpl negb. cbv iota.
  assert (Hgt : (dictfile.getsize w name >? dictfile._size_limit)%Z = true).
  { apply Z.gtb_lt. change dictfile._size_limit with 10485760%Z. lia. }
  unfold bind at 1. rewrite Hgt. reflexivity.
Qed.

(** A field file one byte over the limit, unreadable and unparsable: the
    load still succeeds with the default header and empty data. *)
Lemma load_oversize_returns_default_witness :
  exists hdr,
    dictfile.load samples.oversize_field dictfile.DictFile (Some "0/U")
      false []
    = (Ok (dictfile.mk_obj dictfile.DictFile "0/U" (VDict hdr) empty),
       [dictfile.LogWarning "%s size is > 5MB, will only parse header"])
    /\ lookup hdr "version" = Some (VStr "2.0")
    /\ lookup hdr "format" = Some (VStr "ascii")
    /\ lookup hdr "class" = Some (VStr "dictionary")
    /\ lookup hdr "object" = Some (VStr (quoted "U"))
    /\ lookup hdr "location" = Some (VStr (quoted "0")).
Proof.
  exact (load_oversize_returns_default samples.oversize_field
           dictfile.DictFile (Some "0/U") false "0/U" []
           eq_refl eq_refl eq_refl).
Defined.

(** C2, as amended. For every file within the size limit that is read and
    parsed successfully and whose top-level entries hold no [FoamFile] key,
    [load] returns an object whose header is [None] (no default header is
    built on this path) and whose data is the parsed entries, unchanged. *)
Theorem load_without_FoamFile_header_is_None
    (w : dictfile.world) (cls : dictfile.dict_class) (fname : option string)
    (debug : bool) (name txt : string) (entries : CaelusDict)
    (trace : list dictfile.event) :
  name = str_or fname (dictfile._default_filename cls) ->
  dictfile.path_exists w name = true ->
  (dictfile.getsize w name <= dictfile._size_limit)%Z ->
  dictfile.read_text w name = Ok txt ->
  dictfile.parse w txt name debug = Ok entries ->
  contains entries "FoamFile" = false ->
  dictfile.load w cls fname debug trace
  = (Ok (dictfile.mk_obj cls name VNone entries),
     (trace ++ [dictfile.FileRead name;
                dictfile.ParserCall txt name debug])%list).
Proof.
  intros Hname Hex Hsize Hread Hparse Hkey.
  unfold dictfile.load. rewrite <- Hname, Hex. simpl negb. cbv iota.
  assert (Hle : (dictfile.getsize w name >? dictfile._size_limit)%Z = false).
  { rewrite Z.gtb_ltb. apply Z.ltb_ge. exact Hsize. }
  unfold bind, dictfile.emit, dictfile.lift, modify, ret.
  rewrite Hle, Hread, Hparse, (pop_absent entries "FoamFile" Hkey).
  simpl. now rewrite <- app_assoc.
Qed.

Lemma load_without_FoamFile_header_is_None_witness :
  dictfile.load samples.plain_controlDict dictfile.ControlDict None false []
  = (Ok (dictfile.mk_obj dictfile.ControlDict "system/controlDict" VNone
           [("application", VStr "pisoSolver")]),
     [dictfile.FileRead "system/controlDict";
      dictfile.ParserCall "application pisoSolver;" "system/controlDict"
        false]).
Proof.
  apply (load_without_FoamFile_header_is_None samples.plain_controlDict
           dictfile.ControlDict None false "system/controlDict"
           "application pisoSolver;" [("application", VStr "pisoSolver")] []);
    try reflexivity.
  vm_compute. discriminate.
Defined.

(** C2, the claim as stated fails: a small [system/controlDict] without a
    [FoamFile] block loads with header [None], not with the default header
    that [create_header] builds for that file name. *)
Lemma load_without_FoamFile_counterexample :
  let r := fst (dictfile.load samples.plain_controlDict dictfile.ControlDict
                  None false []) in
  contains [("application", VStr "pisoSolver")] "FoamFile" = false
  /\ (exists o, r = Ok o
                /\ dictfile.header o = VNone
                /\ dictfile.header o
                   <> VDict (dictfile.create_header o)
                /\ dictfile.data o = [("application", VStr "pisoSolver")]).
Proof.
  split; [reflexivity|].
  eexists. split; [reflexivity|]. simpl.
  repeat split; discriminate.
Qed.


Section TurbulenceProperties.

Import dictfile.

(** The [model] setter on a string: the model is stored, and the block
    named after it is created empty unless that key is already there. *)
Lemma set_model_str (o : obj) (m : string) :
  set_model (VStr m) o
  = (Ok tt,
     set_data
       (let d1 := set (data o) "NONE" (VStr m) in
        if contains d1 (m ++ "Coeffs") then d1
        else set d1 (m ++ "Coeffs") (VDict empty)) o).
Proof.
  unfold set_model, coeffs, bind, get_state, data_set, modify, data_getitem,
    lift, ret, _model_name. simpl.
  rewrite lookup_set_same. simpl.
  destruct (contains (set (data o) "NONE" (VStr m)) (m ++ "Coeffs")) eqn:E;
    simpl.
  - unfold contains in E.
    destruct (lookup (set (data o) "NONE" (VStr m)) (m ++ "Coeffs"));
      [reflexivity|discriminate].
  - now rewrite lookup_set_same.
Qed.

(** Reassigning the model removes nothing: every other entry of the data is
    still there, with its value. *)
Lemma set_model_keeps (o : obj) (m k : string) (v : value) :
  k <> "NONE" ->
  lookup (data o) k = Some v ->
  lookup (data (snd (set_model (VStr m) o))) k = Some v.
Proof.
  intros Hk Hv. rewrite set_model_str. simpl.
  assert (H1 : lookup (set (data o) "NONE" (VStr m)) k = Some v)
    by now rewrite lookup_set_other.
  destruct (contains (set (data o) "NONE" (VStr m)) (m ++ "Coeffs")) eqn:E;
    [exact H1|].
  rewrite lookup_set_other; [exact H1|].
  intros ->. apply contains_false_lookup in E. congruence.
Qed.

(** The [delta] setter on a string. *)
Lemma set_delta_str (o : obj) (v : string) :
  set_delta (VStr v) o
  = (Ok tt,
     set_data
       (let d1 := set (data o) "delta" (VStr v) in
        if contains d1 (v ++ "Coeffs") then d1
        else set d1 (v ++ "Coeffs")
               (VDict (if String.eqb v "cubeRootVol"
                       then [("deltaCoeff", VInt 1)] else []))) o).
Proof.
  unfold set_delta, bind, get_state, data_set, modify, lift, ret,
    add_Coeffs. simpl.
  destruct (contains (set (data o) "delta" (VStr v)) (v ++ "Coeffs"));
    simpl; [reflexivity|].
  destruct (String.eqb v "cubeRootVol"); reflexivity.
Qed.

Lemma coeffs_key_not_delta (v : string) : "delta" <> v ++ "Coeffs".
Proof.
  intros H. apply (f_equal String.length) in H.
  rewrite string_length_append in H. simpl in H. lia.
Qed.

(** The data of a freshly constructed [LESProperties]. *)
Lemma init_LESProperties (fname : option string) :
  exists o,
    init LESProperties fname true = (Ok o, o)
    /\ data o = [ ("turbulence", VStr "on"); ("printCoeffs", VStr "on");
                  ("delta", VStr "cubeRootVol");
                  ("cubeRootVolCoeffs", VDict [("deltaCoeff", VInt 1)]) ].
Proof. eexists. split; reflexivity. Qed.

(** On a fresh [LESProperties] the only keys of the form [v ++ "Coeffs"]
    are those of ["print"] and ["cubeRootVol"]. *)
Lemma fresh_LES_coeffs_key_absent (v : string) :
  v <> "cubeRootVol" -> v <> "print" ->
  lookup [ ("turbulence", VStr "on"); ("printCoeffs", VStr "on");
           ("delta", VStr "cubeRootVol");
           ("cubeRootVolCoeffs", VDict [("deltaCoeff", VInt 1)]) ]
         (v ++ "Coeffs") = None.
Proof.
  intros Hc Hp. unfold lookup.
  destruct (String.eqb_spec "turbulence" (v ++ "Coeffs")) as [E|_].
  { change "turbulence" with ("turb" ++ "ulence") in E.
    apply append_inj_suffix in E; [|reflexivity].
    destruct E as [_ E]. discriminate. }
  destruct (String.eqb_spec "printCoeffs" (v ++ "Coeffs")) as [E|_].
  { change "printCoeffs" with ("print" ++ "Coeffs") in E.
    apply append_inj_suffix in E; [|reflexivity].
    destruct E as [E _]. congruence. }
  destruct (String.eqb_spec "delta" (v ++ "Coeffs")) as [E|_].
  { now apply coeffs_key_not_delta in E. }
  destruct (String.eqb_spec "cubeRootVolCoeffs" (v ++ "Coeffs")) as [E|_].
  { change "cubeRootVolCoeffs" with ("cubeRootVol" ++ "Coeffs") in E.
    apply append_inj_suffix in E; [|reflexivity].
    destruct E as [E _]. congruence. }
  reflexivity.
Qed.

End TurbulenceProperties.

(** C9. On a turbulence-model file that has neither block yet, setting
    [model] to ["kOmegaSST"] creates [kOmegaSSTCoeffs] as an empty container;
    setting [model] to ["kEpsilon"] afterwards creates [kEpsilonCoeffs] and
    leaves [kOmegaSSTCoeffs] in the data. More generally the second
    assignment keeps every entry the data held (other than the model entry
    itself, which it rewrites): nothing is pruned. *)
Theorem model_reassignment_keeps_stale_coeffs (o : dictfile.obj) :
  lookup (dictfile.data o) "kOmegaSSTCoeffs" = None ->
  lookup (dictfile.data o) "kEpsilonCoeffs" = None ->
  exists o1 o2,
    dictfile.set_model (VStr "kOmegaSST") o = (Ok tt, o1)
    /\ dictfile.model o1 = VStr "kOmegaSST"
    /\ lookup (dictfile.data o1) "kOmegaSSTCoeffs" = Some (VDict empty)
    /\ dictfile.set_model (VStr "kEpsilon") o1 = (Ok tt, o2)
    /\ dictfile.model o2 = VStr "kEpsilon"
    /\ lookup (dictfile.data o2) "kEpsilonCoeffs" = Some (VDict empty)
    /\ lookup (dictfile.data o2) "kOmegaSSTCoeffs" = Some (VDict empty)
    /\ (forall k v,
          k <> dictfile._model_name (dictfile.klass o) ->
          lookup (dictfile.data o1) k = Some v ->
          lookup (dictfile.data o2) k = Some v).
Proof.
  intros Hsst Heps.
  pose (d1 := set (dictfile.data o) "NONE" (VStr "kOmegaSST")).
  assert (C1 : contains d1 "kOmegaSSTCoeffs" = false).
  { apply lookup_None_contains. unfold d1.
    rewrite lookup_set_other; [exact Hsst|discriminate]. }
  pose (o1 := dictfile.set_data (set d1 "kOmegaSSTCoeffs" (VDict empty)) o).
  assert (S1 : dictfile.set_model (VStr "kOmegaSST") o = (Ok tt, o1)).
  { rewrite set_model_str. cbv zeta.
    change ("kOmegaSST" ++ "Coeffs") with "kOmegaSSTCoeffs".
    fold d1. now rewrite C1. }
  assert (L1 : lookup (dictfile.data o1) "kOmegaSSTCoeffs"
               = Some (VDict empty)).
  { unfold o1. simpl. apply lookup_set_same. }
  pose (d2 := set (dictfile.data o1) "NONE" (VStr "kEpsilon")).
  assert (C2 : contains d2 "kEpsilonCoeffs" = false).
  { apply lookup_None_contains. unfold d2, o1, d1. simpl.
    rewrite !lookup_set_other by discriminate. exact Heps. }
  pose (o2 := dictfile.set_data (set d2 "kEpsilonCoeffs" (VDict empty)) o1).
  assert (S2 : dictfile.set_model (VStr "kEpsilon") o1 = (Ok tt, o2)).
  { rewrite set_model_str. cbv zeta.
    change ("kEpsilon" ++ "Coeffs") with "kEpsilonCoeffs".
    fold d2. now rewrite C2. }
  assert (K : forall k v, k <> "NONE" ->
                lookup (dictfile.data o1) k = Some v ->
                lookup (dictfile.data o2) k = Some v).
  { intros k v Hk Hv.
    pose proof (set_model_keeps o1 "kEpsilon" k v Hk Hv) as H.
    now rewrite S2 in H. }
  exists o1, o2. repeat split; auto.
  - unfold dictfile.model, dictfile._model_name, o1, d1. simpl.
    unfold get. rewrite lookup_set_other by discriminate.
    now rewrite lookup_set_same.
  - unfold dictfile.model, dictfile._model_name, o2, d2. simpl.
    unfold get. rewrite lookup_set_other by discriminate.
    now rewrite lookup_set_same.
  - unfold o2. simpl. apply lookup_set_same.
  - apply K; [discriminate|exact L1].
Qed.

(** The scenario on a freshly constructed [RASProperties]. *)
Lemma model_reassignment_keeps_stale_coeffs_witness :
  exists o1 o2,
    dictfile.set_model (VStr "kOmegaSST")
      (snd (dictfile.init dictfile.RASProperties None true)) = (Ok tt, o1)
    /\ lookup (dictfile.data o1) "kOmegaSSTCoeffs" = Some (VDict empty)
    /\ dictfile.set_model (VStr "kEpsilon") o1 = (Ok tt, o2)
    /\ lookup (dictfile.data o2) "kEpsilonCoeffs" = Some (VDict empty)
    /\ lookup (dictfile.data o2) "kOmegaSSTCoeffs" = Some (VDict empty).
Proof.
  destruct (model_reassignment_keeps_stale_coeffs
              (snd (dictfile.init dictfile.RASProperties None true))
              eq_refl eq_refl)
    as (o1 & o2 & H1 & _ & H2 & H3 & _ & H4 & H5 & _).
  exists o1, o2. repeat split; assumption.
Defined.

(** C10, as amended. A freshly constructed [LESProperties] has
    [delta = "cubeRootVol"] and [cubeRootVolCoeffs = {deltaCoeff: 1}].
    Setting [delta] to a string [v] whose key [v ++ "Coeffs"] is not yet in
    the data creates that block, as [{deltaCoeff: 1}] when [v] is
    ["cubeRootVol"] and empty for every other [v]; an entry already stored
    under that key is left as it is. On the fresh file the keys not yet
    there are those of every [v] other than ["cubeRootVol"] and ["print"]. *)
Theorem delta_coeffs_default_only_for_cubeRootVol
    (fname : option string) (o0 : dictfile.obj) (v : string) :
  (exists o,
     dictfile.init dictfile.LESProperties fname true = (Ok o, o)
     /\ lookup (dictfile.data o) "delta" = Some (VStr "cubeRootVol")
     /\ lookup (dictfile.data o) "cubeRootVolCoeffs"
        = Some (VDict [("deltaCoeff", VInt 1)])
     /\ (v <> "cubeRootVol" -> v <> "print" ->
         exists o',
           dictfile.set_delta (VStr v) o = (Ok tt, o')
           /\ lookup (dictfile.data o') "delta" = Some (VStr v)
           /\ lookup (dictfile.data o') (v ++ "Coeffs") = Some (VDict empty)))
  /\ (lookup (dictfile.data o0) (v ++ "Coeffs") = None ->
      exists o',
        dictfile.set_delta (VStr v) o0 = (Ok tt, o')
        /\ lookup (dictfile.data o') "delta" = Some (VStr v)
        /\ lookup (dictfile.data o') (v ++ "Coeffs")
           = Some (VDict (if String.eqb v "cubeRootVol"
                          then [("deltaCoeff", VInt 1)] else empty)))
  /\ (forall x,
        lookup (dictfile.data o0) (v ++ "Coeffs") = Some x ->
        exists o',
          dictfile.set_delta (VStr v) o0 = (Ok tt, o')
          /\ lookup (dictfile.data o') (v ++ "Coeffs") = Some x).
Proof.
  assert (Absent : forall o : dictfile.obj,
            lookup (dictfile.data o) (v ++ "Coeffs") = None ->
            exists o',
              dictfile.set_delta (VStr v) o = (Ok tt, o')
              /\ lookup (dictfile.data o') "delta" = Some (VStr v)
              /\ lookup (dictfile.data o') (v ++ "Coeffs")
                 = Some (VDict (if String.eqb v "cubeRootVol"
                                then [("deltaCoeff", VInt 1)] else empty))).
  { intros o Hnone. rewrite set_delta_str. eexists. split; [reflexivity|].
    simpl.
    assert (C : contains (set (dictfile.data o) "delta" (VStr v))
                  (v ++ "Coeffs") = false).
    { apply lookup_None_contains. rewrite lookup_set_other; [exact Hnone|].
      intros E. symmetry in E. now apply coeffs_key_not_delta in E. }
    rewrite C. split.
    - rewrite lookup_set_other by apply coeffs_key_not_delta.
      apply lookup_set_same.
    - apply lookup_set_same. }
  split; [|split].
  - destruct (init_LESProperties fname) as (o & Hinit & Hdata).
    exists o. split; [exact Hinit|]. rewrite Hdata.
    split; [reflexivity|]. split; [reflexivity|].
    intros Hc Hp.
    destruct (Absent o) as (o' & H1 & H2 & H3).
    { rewrite Hdata. now apply fresh_LES_coeffs_key_absent. }
    exists o'. split; [exact H1|]. split; [exact H2|].
    rewrite H3. destruct (String.eqb_spec v "cubeRootVol"); congruence.
  - apply Absent.
  - intros x Hx. rewrite set_delta_str. eexists. split; [reflexivity|].
    simpl.
    assert (L : lookup (set (dictfile.data o0) "delta" (VStr v))
                  (v ++ "Coeffs") = Some x).
    { rewrite lookup_set_other; [exact Hx|].
      intros E. symmetry in E. now apply coeffs_key_not_delta in E. }
    unfold contains. now rewrite L.
Qed.

(** [delta = "vanDriest"] on the fresh file, and [delta = "cubeRootVol"] on
    an object built without defaults. *)
Lemma delta_coeffs_default_only_for_cubeRootVol_witness :
  (exists o',
     dictfile.set_delta (VStr "vanDriest")
       (snd (dictfile.init dictfile.LESProperties None true)) = (Ok tt, o')
     /\ lookup (dictfile.data o') "vanDriestCoeffs" = Some (VDict empty))
  /\ (exists o',
        dictfile.set_delta (VStr "cubeRootVol")
          (snd (dictfile.init dictfile.LESProperties None false))
        = (Ok tt, o')
        /\ lookup (dictfile.data o') "cubeRootVolCoeffs"
           = Some (VDict [("deltaCoeff", VInt 1)])).
Proof.
  split.
  - destruct (delta_coeffs_default_only_for_cubeRootVol None
                (snd (dictfile.init dictfile.LESProperties None true))
                "vanDriest") as (_ & H & _).
    destruct (H eq_refl) as (o' & H1 & _ & H2).
    exists o'. split; [exact H1|exact H2].
  - destruct (delta_coeffs_default_only_for_cubeRootVol None
                (snd (dictfile.init dictfile.LESProperties None false))
                "cubeRootVol") as (_ & H & _).
    destruct (H eq_refl) as (o' & H1 & _ & H2).
    exists o'. split; [exact H1|exact H2].
Defined.

(** C10, the claim as stated fails: on a freshly constructed
    [LESProperties], setting [delta] to ["print"], a value other than
    ["cubeRootVol"], does not yield an empty [printCoeffs] block.
    The key [printCoeffs] is the declared on/off property, it is already in
    the data, and it keeps its value ["on"]. *)
Lemma delta_print_counterexample :
  let o := snd (dictfile.init dictfile.LESProperties None true) in
  "print" <> "cubeRootVol"
  /\ (exists o',
        dictfile.set_delta (VStr "print") o = (Ok tt, o')
        /\ lookup (dictfile.data o') "delta" = Some (VStr "print")
        /\ lookup (dictfile.data o') ("print" ++ "Coeffs")
           = Some (VStr "on")
        /\ lookup (dictfile.data o') ("print" ++ "Coeffs")
           <> Some (VDict empty)).
Proof.
  split; [discriminate|].
  eexists. split; [reflexivity|]. simpl.
  repeat split; discriminate.
Qed.

(* ===================================================================== *)
(** * The order on versions *)
(* ===================================================================== *)

Section VersionOrder.

Import LooseVersion.

Lemma string_compare_refl (s : string) : String.compare s s = Eq.
Proof.
  pose proof (String.compare_antisym s s) as H.
  destruct (String.compare s s); simpl in H; congruence.
Qed.

Lemma string_compare_lt_trans (a b c : string) :
  String.compare a b = Lt -> String.compare b c = Lt ->
  String.compare a c = Lt.
Proof.
  intros H1 H2.
  exact (@RelationClasses.StrictOrder_Transitive _ _
           String_as_OT.lt_strorder a b c H1 H2).
Qed.

Lemma component_cmp_refl (a : component) : component_cmp a a = Eq.
Proof.
  destruct a; simpl; [apply Z.compare_refl|apply string_compare_refl].
Qed.

Lemma component_cmp_eq (a b : component) : component_cmp a b = Eq -> a = b.
Proof.
  destruct a, b; simpl; intros H; try discriminate.
  - apply Z.compare_eq in H. now subst.
  - apply String.compare_eq_iff in H. now subst.
Qed.

Lemma component_cmp_antisym (a b : component) :
  component_cmp b a = CompOpp (component_cmp a b).
Proof.
  destruct a, b; simpl; auto.
  - apply Z.compare_antisym.
  - apply String.compare_antisym.
Qed.

Lemma component_cmp_lt_trans (a b c : component) :
  component_cmp a b = Lt -> component_cmp b c = Lt -> component_cmp a c = Lt.
Proof.
  destruct a, b, c; simpl; intros H1 H2; try discriminate; auto.
  - rewrite Z.compare_lt_iff in *. lia.
  - eapply string_compare_lt_trans; eauto.
Qed.

Lemma list_cmp_refl (a : list component) : list_cmp a a = Eq.
Proof.
  induction a as [|x a IH]; simpl; auto. now rewrite component_cmp_refl.
Qed.

Lemma list_cmp_eq (a b : list component) : list_cmp a b = Eq -> a = b.
Proof.
  revert b. induction a as [|x a IH]; intros [|y b]; simpl;
    intros H; try discriminate; auto.
  destruct (component_cmp x y) eqn:E; try discriminate.
  apply component_cmp_eq in E. subst. f_equal. now apply IH.
Qed.

Lemma list_cmp_antisym (a b : list component) :
  list_cmp b a = CompOpp (list_cmp a b).
Proof.
  revert b. induction a as [|x a IH]; intros [|y b]; simpl; auto.
  rewrite (component_cmp_antisym x y).
  destruct (component_cmp x y); simpl; auto.
Qed.

Lemma list_cmp_lt_trans (a b c : list component) :
  list_cmp a b = Lt -> list_cmp b c = Lt -> list_cmp a c = Lt.
Proof.
  revert b c. induction a as [|x a IH]; intros [|y b] [|z c]; simpl;
    intros H1 H2; try discriminate; auto.
  destruct (component_cmp x y) eqn:Exy; try discriminate.
  - apply component_cmp_eq in Exy. subst y.
    destruct (component_cmp x z); try discriminate; auto.
    eapply IH; eauto.
  - destruct (component_cmp y z) eqn:Eyz; try discriminate.
    + apply component_cmp_eq in Eyz. subst z. now rewrite Exy.
    + now rewrite (component_cmp_lt_trans x y z Exy Eyz).
Qed.

Lemma lt_iff (a b : t) : lt a b = true <-> cmp a b = Lt.
Proof. unfold lt. destruct (cmp a b); split; congruence. Qed.

Lemma not_below_iff (a b : t) : not_below a b <-> cmp b a <> Gt.
Proof.
  unfold not_below, lt, cmp.
  rewrite (list_cmp_antisym (version a) (version b)).
  destruct (list_cmp (version a) (version b)); simpl; split; congruence.
Qed.

Lemma not_below_refl (a : t) : not_below a a.
Proof. unfold not_below, lt, cmp. now rewrite list_cmp_refl. Qed.

Lemma lt_not_below (a b : t) : lt a b = true -> not_below b a.
Proof.
  unfold not_below, lt, cmp.
  rewrite (list_cmp_antisym (version a) (version b)).
  destruct (list_cmp (version a) (version b)); simpl; congruence.
Qed.

Lemma not_below_trans (a b c : t) :
  not_below a b -> not_below b c -> not_below a c.
Proof.
  unfold not_below, lt, cmp. intros Hab Hbc.
  destruct (list_cmp (version a) (version c)) eqn:Eac; auto.
  destruct (list_cmp (version b) (version c)) eqn:Ebc; try discriminate.
  - apply list_cmp_eq in Ebc. rewrite Ebc in Hab. now rewrite Eac in Hab.
  - assert (Ecb : list_cmp (version c) (version b) = Lt).
    { rewrite list_cmp_antisym, Ebc. reflexivity. }
    now rewrite (list_cmp_lt_trans _ _ _ Eac Ecb) in Hab.
Qed.

(** ** The head of the sorted list *)

Lemma insert_desc_head (x y : t) (r : list t) :
  exists r', insert_desc x (y :: r) = pick y x :: r'.
Proof.
  simpl. unfold pick. destruct (lt y x); eexists; reflexivity.
Qed.

Lemma fold_insert_head (l : list t) (h : t) (r : list t) :
  exists r',
    fold_left (fun acc x => insert_desc x acc) l (h :: r)
    = fold_left pick l h :: r'.
Proof.
  revert h r. induction l as [|x l IH]; intros h r; simpl.
  - eexists; reflexivity.
  - destruct (insert_desc_head x h r) as [r' E].
    simpl in E. rewrite E. apply IH.
Qed.

Lemma sorted_reverse_head (x : t) (l : list t) :
  exists r', sorted_reverse (x :: l) = fold_left pick l x :: r'.
Proof. unfold sorted_reverse. simpl. apply fold_insert_head. Qed.

Lemma fold_pick_in (l : list t) (h : t) : In (fold_left pick l h) (h :: l).
Proof.
  revert h. induction l as [|x l IH]; intros h; simpl; auto.
  destruct (IH (pick h x)) as [E|H]; [|now right; right].
  rewrite <- E. unfold pick. destruct (lt h x); auto.
Qed.

Lemma fold_pick_not_below (l : list t) (h : t) :
  forall y, In y (h :: l) -> not_below (fold_left pick l h) y.
Proof.
  revert h. induction l as [|x l IH]; intros h y Hy; simpl.
  - destruct Hy as [<-|[]]. apply not_below_refl.
  - assert (Hh : not_below (pick h x) h).
    { unfold pick. destruct (lt h x) eqn:E;
        [now apply lt_not_below|apply not_below_refl]. }
    assert (Hx : not_below (pick h x) x).
    { unfold pick. destruct (lt h x) eqn:E;
        [apply not_below_refl|exact E]. }
    assert (Htop : not_below (fold_left pick l (pick h x)) (pick h x))
      by (apply IH; now left).
    destruct Hy as [<-|[<-|Hy]].
    + eapply not_below_trans; eauto.
    + eapply not_below_trans; eauto.
    + apply IH. now right.
Qed.

(** On versions made of numbers only, the comparison of the code is the
    component-wise numeric comparison of the design document. *)
Lemma list_cmp_numeric (a b : list component) (za zb : list Z) :
  numbers a = Some za -> numbers b = Some zb ->
  list_cmp a b = design.numeric_cmp za zb.
Proof.
  revert b za zb.
  induction a as [|[x|s] a IH]; intros [|[y|s'] b] za zb Ha Hb;
    simpl in Ha, Hb; try discriminate.
  - injection Ha as <-. injection Hb as <-. reflexivity.
  - destruct (numbers b); [|discriminate].
    injection Ha as <-. injection Hb as <-. reflexivity.
  - destruct (numbers a); [|discriminate].
    injection Ha as <-. injection Hb as <-. reflexivity.
  - destruct (numbers a) as [la|] eqn:Ea; [|discriminate].
    destruct (numbers b) as [lb|] eqn:Eb; [|discriminate].
    injection Ha as <-. injection Hb as <-. simpl.
    now rewrite (IH b la lb eq_refl Eb).
Qed.

End VersionOrder.

Section DottedVersions.

Import LooseVersion.

Lemma int_of_digits_decimal (p : string) : int_of_digits p = design.decimal p.
Proof.
  unfold int_of_digits, design.decimal. generalize 0%Z.
  induction p as [|c p IH]; intros acc; simpl; auto.
Qed.

Lemma classify_digit (c : ascii) : design.is_digit c = true -> classify c = CDigit.
Proof. unfold design.is_digit, classify. now intros ->. Qed.

Lemma classify_dot (c : ascii) : design.is_dot c = true -> classify c = CDot.
Proof.
  unfold design.is_dot. intros H. apply Ascii.eqb_eq in H. now subst.
Qed.

(** A string whose pieces hold digits only is cut by [runs] into its
    non-empty pieces and its dots. *)
Lemma runs_dotted (s : string) :
  forallb design.only_digits (design.split_dots s) = true ->
  filter not_dot (runs s)
  = map (fun p => (CDigit, p)) (filter str_truthy (design.split_dots s))
  /\ match runs s with
     | [] => hd "" (design.split_dots s) = ""
     | (CDigit, t) :: _ => hd "" (design.split_dots s) = t /\ str_truthy t = true
     | (CDot, _) :: _ => hd "" (design.split_dots s) = ""
     | _ => False
     end.
Proof.
  induction s as [|c r IH]; simpl; [auto|].
  destruct (design.is_dot c) eqn:Edot.
  - simpl. intros H. destruct (IH H) as [IH1 IH2].
    rewrite (classify_dot c Edot).
    destruct (runs r) as [|[k' t] rest]; simpl; auto.
  - destruct (design.split_dots r) as [|p ps] eqn:Esplit; simpl.
    + intros _. exfalso. destruct r; simpl in Esplit; [discriminate|].
      destruct (design.is_dot a); [discriminate|].
      destruct (design.split_dots r); discriminate.
    + intros H. apply andb_prop in H. destruct H as [H Hps].
      apply andb_prop in H. destruct H as [Hc Hp].
      assert (Hr : forallb design.only_digits (p :: ps) = true)
        by (simpl; now rewrite Hp, Hps).
      destruct (IH Hr) as [IH1 IH2]. clear IH.
      rewrite (classify_digit c Hc).
      destruct (runs r) as [|[k' t] rest]; simpl in *.
      * subst p. simpl in IH1. split; [|auto]. now rewrite <- IH1.
      * destruct k'; simpl in *; try contradiction.
        -- destruct IH2 as [-> Ht]. rewrite Ht in IH1. simpl in IH1.
           injection IH1 as ->. auto.
        -- subst p. simpl in IH1. rewrite IH1. auto.
Qed.

Lemma filter_all {A} (f : A -> bool) (l : list A) :
  forallb f l = true -> filter f l = l.
Proof.
  induction l as [|x l IH]; simpl; auto.
  intros H. apply andb_prop in H. destruct H as [-> H]. now rewrite IH.
Qed.

Lemma forallb_and {A} (f g : A -> bool) (l : list A) :
  forallb (fun x => f x && g x) l = true ->
  forallb f l = true /\ forallb g l = true.
Proof.
  induction l as [|x l IH]; simpl; auto.
  intros H. apply andb_prop in H. destruct H as [H1 H2].
  apply andb_prop in H1. destruct H1 as [-> ->]. now apply IH.
Qed.

(** On a dotted version id the components computed by the code are its
    numbers. *)
Lemma parse_dotted (s : string) (zs : list Z) :
  design.dotted_numbers s = Some zs -> parse s = map CInt zs.
Proof.
  unfold design.dotted_numbers.
  destruct (forallb _ (design.split_dots s)) eqn:E; [|discriminate].
  intros [= <-].
  apply forallb_and in E. destruct E as [Hne Hdig].
  destruct (runs_dotted s Hdig) as [H _].
  unfold parse. rewrite H, (filter_all _ _ Hne), !map_map.
  apply map_ext. intros p. simpl. now rewrite int_of_digits_decimal.
Qed.

Lemma numbers_map_CInt (zs : list Z) : numbers (map CInt zs) = Some zs.
Proof. induction zs as [|z zs IH]; simpl; [|rewrite IH]; reflexivity. Qed.

Lemma numbers_dotted (s : string) (zs : list Z) :
  design.dotted_numbers s = Some zs -> numbers (parse s) = Some zs.
Proof.
  intros H. rewrite (parse_dotted s zs H). apply numbers_map_CInt.
Qed.

End DottedVersions.

Section SortedVersions.

Import LooseVersion.

Lemma insert_desc_perm (x : t) (l : list t) :
  Permutation (insert_desc x l) (x :: l).
Proof.
  induction l as [|y l IH]; simpl; [reflexivity|].
  destruct (lt y x); [reflexivity|].
  rewrite IH. apply perm_swap.
Qed.

Lemma insert_desc_sorted (x : t) (l : list t) :
  StronglySorted not_below l -> StronglySorted not_below (insert_desc x l).
Proof.
  induction l as [|y l IH]; intros Hs; simpl.
  - constructor; constructor.
  - inversion Hs as [|? ? Hl Hy]; subst.
    destruct (lt y x) eqn:E.
    + constructor; [exact Hs|].
      constructor; [now apply lt_not_below|].
      rewrite Forall_forall in *. intros z Hz.
      apply not_below_trans with y; [now apply lt_not_below|now apply Hy].
    + constructor; [now apply IH|].
      rewrite Forall_forall in *. intros z Hz.
      apply (Permutation_in _ (insert_desc_perm x l)) in Hz.
      destruct Hz as [<-|Hz]; [exact E|now apply Hy].
Qed.

Lemma fold_insert_sorted (l acc : list t) :
  StronglySorted not_below acc ->
  StronglySorted not_below (fold_left (fun a x => insert_desc x a) l acc)
  /\ Permutation (fold_left (fun a x => insert_desc x a) l acc) (acc ++ l).
Proof.
  revert acc. induction l as [|x l IH]; intros acc Hs; simpl.
  - rewrite app_nil_r. now split.
  - destruct (IH (insert_desc x acc) (insert_desc_sorted x acc Hs))
      as [H1 H2].
    split; [exact H1|]. rewrite H2, insert_desc_perm. simpl.
    apply Permutation_middle.
Qed.

(** [sorted(l, reverse=True)] is a rearrangement of [l] in which no element
    is below a later one. *)
Lemma sorted_reverse_descending (l : list t) :
  StronglySorted not_below (sorted_reverse l)
  /\ Permutation (sorted_reverse l) l.
Proof.
  destruct (fold_insert_sorted l [] (SSorted_nil _)) as [H1 H2].
  now split.
Qed.

End SortedVersions.

(* ===================================================================== *)
(** * Properties of [caelus.config.cmlenv] *)
(* ===================================================================== *)

Lemma bind_eq {St A B : Type} (m : M St A) (k : A -> M St B) (s : St) :
  bind m k s
  = match m s with
    | (Ok a, s') => k a s'
    | (Raise e, s') => (Raise e, s')
    end.
Proof. reflexivity. Qed.

Section SearchFacts.

Context {A : Type} (f : A -> bool).

(** [find] returns the first element that passes the test. *)
Lemma find_first (l : list A) (x : A) :
  In x l -> f x = true ->
  exists i p,
    find f l = Some p
    /\ nth_error l i = Some p
    /\ f p = true
    /\ (forall j q, j < i -> nth_error l j = Some q -> f q = false).
Proof.
  induction l as [|y l IH]; intros Hin Hx; [destruct Hin|].
  simpl. destruct (f y) eqn:Hy.
  - exists 0, y. repeat split; auto. intros j q Hj. lia.
  - destruct Hin as [->|Hin]; [congruence|].
    destruct (IH Hin Hx) as (i & p & H1 & H2 & H3 & H4).
    exists (S i), p. repeat split; auto.
    intros [|j] q Hj Hq; simpl in Hq.
    + injection Hq as <-. exact Hy.
    + apply (H4 j q); [lia|exact Hq].
Qed.

End SearchFacts.

Section RegistryFacts.

Import cmlenv.

Lemma dict_get_in (d : list (string * CMLEnv)) (k : string) :
  In k (map fst d) -> exists e, dict_get d k = Some e.
Proof.
  induction d as [|[k' e'] d IH]; simpl; [intros []|].
  intros [->|Hin].
  - rewrite String.eqb_refl. eauto.
  - destruct (String.eqb k' k); eauto.
Qed.

Lemma dict_set_nonempty (d : list (string * CMLEnv)) k e :
  dict_set d k e <> [].
Proof.
  destruct d as [|[k' e'] d]; simpl; [discriminate|].
  destruct (String.eqb k' k); discriminate.
Qed.

(** The constructor never raises and touches nothing but the log. *)
Lemma CMLEnv_init_ok (w : world) (cfg : CaelusCfg) (s : mgr) :
  exists e lg,
    CMLEnv_init w cfg s
    = (Ok e, mk_mgr (cml_versions s) (did_init s) (log s ++ lg)%list)
    /\ _version e = cfg_version cfg.
Proof.
  unfold CMLEnv_init.
  destruct (match cfg_platform_install cfg with
            | Some b => Some b
            | None => _determine_platform_dir w _
            end) as [b|].
  - destruct (str_truthy b).
    + eexists. exists []. rewrite app_nil_r. destruct s. split; reflexivity.
    + eexists. eexists [_]. split; reflexivity.
  - eexists. eexists [_]. split; reflexivity.
Qed.

(** The loop that fills the registry never raises, leaves [did_init] as it
    is and removes no key. *)
Lemma populate_ok (w : world) (cfgs : list CaelusCfg) (s : mgr) :
  exists s',
    for_each cfgs
      (fun cml => (cenv <- CMLEnv_init w cml ;; register cenv)%py) s
    = (Ok tt, s')
    /\ did_init s' = did_init s
    /\ (cml_versions s <> [] -> cml_versions s' <> [])
    /\ (cfgs <> [] -> cml_versions s' <> [])
    /\ (cfgs = [] -> s' = s).
Proof.
  revert s. induction cfgs as [|c cfgs IH]; intros s.
  - exists s. repeat split; auto.
  - destruct (CMLEnv_init_ok w c s) as (e & lg & He & _).
    simpl. rewrite !bind_eq, He. unfold register, modify.
    cbv beta iota.
    match goal with |- context [for_each cfgs _ ?st] =>
      destruct (IH st) as (s' & H1 & H2 & H3 & _) end.
    exists s'. repeat split; auto.
    + intros _. apply H3. simpl. apply dict_set_nonempty.
    + intros _. apply H3. simpl. apply dict_set_nonempty.
    + discriminate.
Qed.

(** The population step never raises and sets [did_init]. *)
Lemma init_ok (w : world) (s : mgr) :
  exists s',
    _init_cml_versions w s = (Ok tt, s')
    /\ did_init s' = true
    /\ (cml_versions s <> [] -> cml_versions s' <> []).
Proof.
  unfold _init_cml_versions.
  destruct (nonempty (versions w)).
  - simpl andb.
    destruct (nonempty (_filter_invalid_versions w (versions w))); simpl negb;
      cbv iota.
    + rewrite !bind_eq. unfold ret at 1.
      destruct (populate_ok w (_filter_invalid_versions w (versions w)) s)
        as (s' & H1 & H2 & H3 & _).
      rewrite H1. eexists. split; [reflexivity|]. simpl. auto.
    + rewrite !bind_eq. unfold emit, modify.
      match goal with |- context [for_each ?l _ ?st] =>
        destruct (populate_ok w l st) as (s' & H1 & H2 & H3 & _) end.
      rewrite H1. eexists. split; [reflexivity|]. simpl. auto.
  - rewrite !bind_eq.
    destruct (populate_ok w (discover_versions w None) s)
      as (s' & H1 & H2 & H3 & _).
    rewrite H1. eexists. split; [reflexivity|]. simpl. auto.
Qed.

Lemma init_or_fail_empty (w : world) (s : mgr) :
  cml_versions s = [] -> did_init s = true ->
  init_or_fail w s
  = (Raise (RuntimeError "No valid Caelus CML versions found"), s).
Proof.
  intros H1 H2. unfold init_or_fail, bind, get_state.
  now rewrite H1, H2.
Qed.

Lemma init_or_fail_runs (w : world) (s : mgr) :
  cml_versions s <> [] \/ did_init s = false ->
  init_or_fail w s = _init_cml_versions w s.
Proof.
  intros H. unfold init_or_fail, bind, get_state.
  destruct (cml_versions s) eqn:E; simpl.
  - destruct H as [H|H]; [congruence|]. now rewrite H.
  - reflexivity.
Qed.

(** What [_get_latest_version] does once the population step has run. *)
Lemma get_latest_after_init (w : world) (s s1 : mgr) :
  init_or_fail w s = (Ok tt, s1) ->
  _get_latest_version w s
  = match LooseVersion.sorted_reverse
            (map LooseVersion.make (map fst (cml_versions s1))) with
    | [] => (Raise (IndexError "list index out of range"), s1)
    | v :: _ => registry_getitem (LooseVersion.vstring v) s1
    end.
Proof.
  intros H. unfold _get_latest_version, bind at 1. rewrite H.
  unfold bind, get_state.
  destruct (LooseVersion.sorted_reverse _); reflexivity.
Qed.

(** An access to a registry that an earlier initialization left empty. *)
Lemma access_after_empty_init (w : world) (s : mgr)
    (version : option string) :
  cml_versions s = [] -> did_init s = true ->
  _get_latest_version w s
  = (Raise (RuntimeError "No valid Caelus CML versions found"), s)
  /\ _get_version w version s
     = (Raise (RuntimeError "No valid Caelus CML versions found"), s).
Proof.
  intros Hempty Hdid.
  pose proof (init_or_fail_empty w s Hempty Hdid) as Hfail.
  unfold _get_latest_version, _get_version.
  rewrite !bind_eq, Hfail. split; reflexivity.
Qed.

Lemma registry_getitem_state (k : string) (s : mgr) :
  snd (registry_getitem k s) = s.
Proof.
  unfold registry_getitem. now destruct (dict_get (cml_versions s) k).
Qed.

End RegistryFacts.

(** C7. The build-directory search tests the paths
    [platforms/<os><arch><compiler><precision><opt>] in the order of
    [design.probe_order]: architecture outermost, then precision, then
    optimization, then compiler innermost. Whenever the [platforms]
    directory holds at least one of them, the search returns a candidate that
    exists and before which no candidate exists, and that candidate is the
    only one with this property. *)
Theorem platform_dir_is_first_existing
    (w : cmlenv.world) (root_path basepath : string) :
  basepath = posixpath.join root_path "platforms" ->
  cmlenv.path_exists w basepath = true ->
  (exists c, In c (cmlenv.candidates (cmlenv.ostype w) basepath)
             /\ cmlenv.path_exists w c = true) ->
  cmlenv.candidates (cmlenv.ostype w) basepath
  = map (fun n => posixpath.join basepath (cmlenv.ostype w ++ n))
        design.probe_order
  /\ exists i p,
       cmlenv._determine_platform_dir w root_path = Some p
       /\ nth_error (cmlenv.candidates (cmlenv.ostype w) basepath) i = Some p
       /\ cmlenv.path_exists w p = true
       /\ (forall j q,
             j < i ->
             nth_error (cmlenv.candidates (cmlenv.ostype w) basepath) j
             = Some q ->
             cmlenv.path_exists w q = false)
       /\ (forall i' p',
             nth_error (cmlenv.candidates (cmlenv.ostype w) basepath) i'
             = Some p' ->
             cmlenv.path_exists w p' = true ->
             (forall j q,
                j < i' ->
                nth_error (cmlenv.candidates (cmlenv.ostype w) basepath) j
                = Some q ->
                cmlenv.path_exists w q = false) ->
             i' = i /\ p' = p).
Proof.
  intros Hbase Hplat (c & Hin & Hc).
  split; [reflexivity|].
  destruct (find_first (cmlenv.path_exists w) _ c Hin Hc)
    as (i & p & Hfind & Hnth & Hp & Hmin).
  exists i, p. split.
  { unfold cmlenv._determine_platform_dir. rewrite <- Hbase, Hplat.
    exact Hfind. }
  split; [exact Hnth|]. split; [exact Hp|]. split; [exact Hmin|].
  intros i' p' Hnth' Hp' Hmin'.
  assert (Hi : i' = i).
  { destruct (Nat.lt_trichotomy i' i) as [Hlt|[Heq|Hgt]]; auto.
    - rewrite (Hmin i' p' Hlt Hnth') in Hp'. discriminate.
    - rewrite (Hmin' i p Hgt Hnth) in Hp. discriminate. }
  subst i'. split; congruence.
Qed.

(** Version 4.10 of the sample machine has three build directories; the
    search reports [linux64g++DPOpt], the first of the enumeration, and not
    [linux64icpcDPOpt] or [linux32icpcSPDebug]. *)
Lemma platform_dir_is_first_existing_witness :
  cmlenv._determine_platform_dir samples.three_versions
    "/opt/Caelus/caelus-4.10"
  = Some "/opt/Caelus/caelus-4.10/platforms/linux64g++DPOpt"
  /\ nth_error (cmlenv.candidates "linux" "/opt/Caelus/caelus-4.10/platforms")
       0
     = Some "/opt/Caelus/caelus-4.10/platforms/linux64g++DPOpt".
Proof.
  destruct (platform_dir_is_first_existing samples.three_versions
              "/opt/Caelus/caelus-4.10" "/opt/Caelus/caelus-4.10/platforms"
              eq_refl eq_refl
              (ex_intro _ "/opt/Caelus/caelus-4.10/platforms/linux64icpcDPOpt"
                 (conj (or_intror (or_introl eq_refl)) eq_refl)))
    as (_ & i & p & Hdir & _ & _ & _ & Huniq).
  destruct (Huniq 0 "/opt/Caelus/caelus-4.10/platforms/linux64g++DPOpt"
              eq_refl eq_refl) as [<- <-].
  - intros j q Hj. inversion Hj.
  - split; [exact Hdir|reflexivity].
Defined.

(** C6. When the registry is not empty after the population step that the
    access runs, and its keys are dotted version ids (numbers separated by
    dots), [_get_latest_version] returns the environment stored under a key
    that no other key exceeds in the component-wise numeric comparison of the
    design document. That key is the head of the list the code sorts, which
    is a rearrangement of the registry keys in which no version is below a
    later one. *)
Theorem latest_version_is_numeric_maximum
    (w : cmlenv.world) (s s1 : cmlenv.mgr) :
  (cmlenv.cml_versions s <> [] \/ cmlenv.did_init s = false) ->
  cmlenv._init_cml_versions w s = (Ok tt, s1) ->
  cmlenv.cml_versions s1 <> [] ->
  (forall k, In k (map fst (cmlenv.cml_versions s1)) ->
             design.dotted_numbers k <> None) ->
  exists k e zs,
    cmlenv._get_latest_version w s = (Ok e, s1)
    /\ In k (map fst (cmlenv.cml_versions s1))
    /\ cmlenv.dict_get (cmlenv.cml_versions s1) k = Some e
    /\ design.dotted_numbers k = Some zs
    /\ (forall k' zs',
          In k' (map fst (cmlenv.cml_versions s1)) ->
          design.dotted_numbers k' = Some zs' ->
          design.numeric_cmp zs' zs <> Gt)
    /\ (exists vlist,
          LooseVersion.sorted_reverse
            (map LooseVersion.make (map fst (cmlenv.cml_versions s1)))
          = LooseVersion.make k :: vlist
          /\ StronglySorted not_below (LooseVersion.make k :: vlist)
          /\ Permutation (LooseVersion.make k :: vlist)
               (map LooseVersion.make (map fst (cmlenv.cml_versions s1)))).
Proof.
  intros Hguard Hinit Hne Hnum.
  assert (Hstep : cmlenv.init_or_fail w s = (Ok tt, s1))
    by now rewrite init_or_fail_runs.
  rewrite (get_latest_after_init w s s1 Hstep).
  destruct (map fst (cmlenv.cml_versions s1)) as [|k0 ks] eqn:Ekeys.
  { destruct (cmlenv.cml_versions s1); [congruence|discriminate]. }
  simpl map.
  destruct (sorted_reverse_head (LooseVersion.make k0)
              (map LooseVersion.make ks)) as [r Hsort].
  rewrite Hsort.
  set (top := fold_left pick (map LooseVersion.make ks)
                (LooseVersion.make k0)) in *.
  assert (Htop : In top (map LooseVersion.make (k0 :: ks)))
    by apply fold_pick_in.
  apply in_map_iff in Htop. destruct Htop as (k & Ek & Hk).
  assert (Hk' : In k (map fst (cmlenv.cml_versions s1)))
    by now rewrite Ekeys.
  destruct (dict_get_in _ _ Hk') as [e He].
  destruct (design.dotted_numbers k) as [zs|] eqn:Ezs;
    [|now elim (Hnum k Hk)].
  exists k, e, zs. split.
  { rewrite <- Ek. simpl. unfold cmlenv.registry_getitem. now rewrite He. }
  split; [exact Hk|].
  split; [exact He|]. split; [exact Ezs|]. split.
  - intros k' zs' Hin' Ezs'.
    assert (Hnb : not_below top (LooseVersion.make k')).
    { apply fold_pick_not_below.
      change (In (LooseVersion.make k') (map LooseVersion.make (k0 :: ks))).
      apply in_map. exact Hin'. }
    apply not_below_iff in Hnb. rewrite <- Ek in Hnb.
    unfold LooseVersion.cmp in Hnb. simpl in Hnb.
    now rewrite (list_cmp_numeric _ _ zs' zs (numbers_dotted _ _ Ezs')
                   (numbers_dotted _ _ Ezs)) in Hnb.
  - exists r. rewrite Ek. split; [reflexivity|].
    rewrite <- Hsort. apply sorted_reverse_descending.
Qed.

(** The registry of the sample machine holds exactly ["4.10"], ["5.0"] and
    ["42.0"]: the latest version is 42.0, although ["5.0"] comes after
    ["42.0"] in the order of strings. *)
Lemma latest_version_is_numeric_maximum_witness :
  (exists e s1,
     cmlenv._get_latest_version samples.three_versions cmlenv.mgr0
     = (Ok e, s1)
     /\ map fst (cmlenv.cml_versions s1) = ["4.10"; "5.0"; "42.0"]
     /\ cmlenv._version e = "42.0"
     /\ cmlenv.dict_get (cmlenv.cml_versions s1) "42.0" = Some e)
  /\ design.dotted_numbers "4.10" = Some [4; 10]%Z
  /\ design.lexical_cmp "5.0" "42.0" = Gt.
Proof.
  split; [|split; reflexivity].
  destruct (latest_version_is_numeric_maximum samples.three_versions
              cmlenv.mgr0
              (snd (cmlenv._init_cml_versions samples.three_versions
                      cmlenv.mgr0))
              (or_intror eq_refl) eq_refl)
    as (k & e & zs & Hget & _).
  - vm_compute. discriminate.
  - vm_compute. intros k [<-|[<-|[<-|[]]]]; discriminate.
  - exists e. eexists. split; [exact Hget|].
    split; [reflexivity|].
    vm_compute in Hget. injection Hget as <-. split; reflexivity.
Defined.

(** C3, as amended. Every access through [_get_latest_version] or
    [_get_version] runs the population step again, whether or not the
    registry already holds entries; the one exception is a registry that an
    earlier initialization left empty: then the access raises [RuntimeError]
    at once, population is not attempted again and the state is unchanged.
    ([_get_version] resolving to ["latest"] goes through
    [_get_latest_version] after its own population step.) *)
Theorem population_runs_unless_empty_after_init
    (w : cmlenv.world) (s : cmlenv.mgr) (version : option string) :
  (cmlenv.cml_versions s = [] -> cmlenv.did_init s = true ->
     cmlenv._get_latest_version w s
     = (Raise (RuntimeError "No valid Caelus CML versions found"), s)
     /\ cmlenv._get_version w version s
        = (Raise (RuntimeError "No valid Caelus CML versions found"), s))
  /\ (cmlenv.cml_versions s <> [] \/ cmlenv.did_init s = false ->
      exists s1,
        cmlenv._init_cml_versions w s = (Ok tt, s1)
        /\ cmlenv.did_init s1 = true
        /\ snd (cmlenv._get_latest_version w s) = s1
        /\ snd (cmlenv._get_version w version s)
           = if String.eqb
                  (str_or version
                     (match cmlenv.default_version w with
                      | Some d => d | None => "" end))
                  "latest"
             then snd (cmlenv._get_latest_version w s1)
             else s1).
Proof.
  split.
  - intros Hempty Hdid. now apply access_after_empty_init.
  - intros Hguard.
    destruct (init_ok w s) as (s1 & Hinit & Hdid & _).
    assert (Hstep : cmlenv.init_or_fail w s = (Ok tt, s1))
      by now rewrite init_or_fail_runs.
    exists s1. split; [exact Hinit|]. split; [exact Hdid|]. split.
    + rewrite (get_latest_after_init w s s1 Hstep).
      destruct (LooseVersion.sorted_reverse _); [reflexivity|].
      apply registry_getitem_state.
    + unfold cmlenv._get_version. rewrite bind_eq, Hstep.
      destruct (String.eqb _ "latest"); [reflexivity|].
      rewrite bind_eq. unfold get_state.
      destruct (cmlenv.dict_get (cmlenv.cml_versions s1) _) eqn:E;
        simpl; [|reflexivity].
      apply registry_getitem_state.
Qed.

(** Both cases on the sample machines: the registry filled from one
    installation is filled again by the next access; the registry left empty
    answers the next access with [RuntimeError]. *)
Lemma population_runs_unless_empty_after_init_witness :
  (exists s1,
     cmlenv._init_cml_versions samples.two_installs
       (snd (cmlenv._get_latest_version samples.one_install cmlenv.mgr0))
     = (Ok tt, s1)
     /\ snd (cmlenv._get_latest_version samples.two_installs
               (snd (cmlenv._get_latest_version samples.one_install
                       cmlenv.mgr0))) = s1)
  /\ cmlenv._get_version samples.two_installs (Some "2.0")
       (snd (cmlenv._get_latest_version samples.no_install cmlenv.mgr0))
     = (Raise (RuntimeError "No valid Caelus CML versions found"),
        snd (cmlenv._get_latest_version samples.no_install cmlenv.mgr0)).
Proof.
  split.
  - destruct (population_runs_unless_empty_after_init samples.two_installs
                (snd (cmlenv._get_latest_version samples.one_install
                        cmlenv.mgr0)) None) as [_ H].
    destruct H as (s1 & H1 & _ & H2 & _).
    + left. vm_compute. discriminate.
    + exists s1. split; [exact H1|exact H2].
  - destruct (population_runs_unless_empty_after_init samples.two_installs
                (snd (cmlenv._get_latest_version samples.no_install
                        cmlenv.mgr0)) (Some "2.0")) as [H _].
    destruct (H eq_refl eq_refl) as [_ H2]. exact H2.
Defined.

(** C3, the claim as stated fails on both counts. The registry that the
    first access filled with version 1.0 is populated again by the second
    access (it gains version 2.0, installed in between, and the constructor
    logs its message for 1.0 a second time). The registry that the first
    access left empty is not populated by the second access, although a
    discovery would now find two versions. *)
Lemma registry_population_counterexample :
  let s1 := snd (cmlenv._get_latest_version samples.one_install
                   cmlenv.mgr0) in
  let s2 := snd (cmlenv._get_latest_version samples.two_installs s1) in
  let e1 := snd (cmlenv._get_latest_version samples.no_install
                   cmlenv.mgr0) in
  (map fst (cmlenv.cml_versions s1) = ["1.0"]
   /\ map fst (cmlenv.cml_versions s2) = ["1.0"; "2.0"]
   /\ length (cmlenv.log s1) = 1
   /\ length (cmlenv.log s2) = 3)
  /\ (cmlenv.cml_versions e1 = []
      /\ map cmlenv.cfg_version
           (cmlenv.discover_versions samples.two_installs None)
         = ["1.0"; "2.0"]
      /\ cmlenv._get_latest_version samples.two_installs e1
         = (Raise (RuntimeError "No valid Caelus CML versions found"), e1)
      /\ cmlenv._get_version samples.two_installs (Some "2.0") e1
         = (Raise (RuntimeError "No valid Caelus CML versions found"), e1)).
Proof. vm_compute. repeat split. Qed.

(** C1, the behaviour of the code. When the configured list is not empty
    and filtering removes every entry, [_init_cml_versions] logs the warning
    and stops there: [discover_versions] is not consulted and the registry is
    left exactly as it was. *)
Theorem init_all_filtered_skips_discovery
    (w : cmlenv.world) (s : cmlenv.mgr) :
  cmlenv.versions w <> [] ->
  cmlenv._filter_invalid_versions w (cmlenv.versions w) = [] ->
  cmlenv._init_cml_versions w s
  = (Ok tt,
     cmlenv.mk_mgr (cmlenv.cml_versions s) true
       (cmlenv.log s ++ [cmlenv.LogWarn cmlenv.no_valid_versions])%list).
Proof.
  intros Hne Hnone. unfold cmlenv._init_cml_versions.
  rewrite Hnone. destruct (cmlenv.versions w); [congruence|]. reflexivity.
Qed.

(** The stale configuration: version 5.0 would be discovered, the registry
    stays empty. *)
Lemma init_all_filtered_skips_discovery_witness :
  map cmlenv.cfg_version
    (cmlenv.discover_versions samples.stale_config None) = ["5.0"]
  /\ cmlenv._init_cml_versions samples.stale_config cmlenv.mgr0
     = (Ok tt,
        cmlenv.mk_mgr [] true [cmlenv.LogWarn cmlenv.no_valid_versions]).
Proof.
  split; [reflexivity|].
  apply (init_all_filtered_skips_discovery samples.stale_config cmlenv.mgr0).
  - discriminate.
  - reflexivity.
Defined.

(** C4, the behaviour of the code. On the first access, when the population
    step leaves the registry empty, [_get_latest_version] raises
    [IndexError] and [_get_version] of a named version raises [KeyError];
    [RuntimeError] is raised by the accesses that follow. *)
Theorem first_access_on_empty_registry
    (w : cmlenv.world) (s s1 : cmlenv.mgr) (name : string) :
  cmlenv.did_init s = false ->
  cmlenv._init_cml_versions w s = (Ok tt, s1) ->
  cmlenv.cml_versions s1 = [] ->
  str_truthy name = true ->
  name <> "latest" ->
  cmlenv._get_latest_version w s
  = (Raise (IndexError "list index out of range"), s1)
  /\ cmlenv._get_version w (Some name) s
     = (Raise (KeyError "Invalid CML version requested"), s1)
  /\ cmlenv._get_latest_version w s1
     = (Raise (RuntimeError "No valid Caelus CML versions found"), s1)
  /\ cmlenv._get_version w (Some name) s1
     = (Raise (RuntimeError "No valid Caelus CML versions found"), s1).
Proof.
  intros Hdid Hinit Hempty Hname Hlatest.
  assert (Hstep : cmlenv.init_or_fail w s = (Ok tt, s1)).
  { rewrite init_or_fail_runs; auto. }
  assert (Hdid1 : cmlenv.did_init s1 = true).
  { destruct (init_ok w s) as (s' & H1 & H2 & _). congruence. }
  split; [|split].
  - rewrite (get_latest_after_init w s s1 Hstep), Hempty. reflexivity.
  - unfold cmlenv._get_version. rewrite bind_eq, Hstep.
    unfold str_or. rewrite Hname.
    destruct (String.eqb_spec name "latest") as [E|_]; [contradiction|].
    rewrite bind_eq. unfold get_state. rewrite Hempty. reflexivity.
  - now apply access_after_empty_init.
Qed.

Lemma first_access_on_empty_registry_witness :
  cmlenv._get_latest_version samples.no_install cmlenv.mgr0
  = (Raise (IndexError "list index out of range"),
     cmlenv.mk_mgr [] true [])
  /\ cmlenv._get_version samples.no_install (Some "5.0") cmlenv.mgr0
     = (Raise (KeyError "Invalid CML version requested"),
        cmlenv.mk_mgr [] true []).
Proof.
  destruct (first_access_on_empty_registry samples.no_install cmlenv.mgr0
              (cmlenv.mk_mgr [] true []) "5.0"
              eq_refl eq_refl eq_refl eq_refl ltac:(discriminate))
    as (H1 & H2 & _).
  split; [exact H1|exact H2].
Defined.

(* ===================================================================== *)
(** * Further properties of [caelus.io.dictfile] *)
(* ===================================================================== *)

Section DefaultsFacts.

Import dictfile.

(** The data the generated [create_default_entries] leaves. *)
Lemma generated_defaults_data (proplist : list plist) (o : obj) :
  generated_defaults proplist o
  = (Ok tt,
     set_data
       (fold_left (fun d p =>
                     if negb (py_eq (plist_default p) VNone)
                     then set d (plist_name p) (plist_default p) else d)
                  proplist (data o)) o).
Proof.
  revert o. induction proplist as [|p l IH]; intros o; simpl.
  - now destruct o.
  - unfold generated_defaults in *. cbn [for_each]. rewrite bind_eq.
    destruct (negb (py_eq (plist_default p) VNone)).
    + unfold data_set, modify. rewrite IH. reflexivity.
    + unfold ret. rewrite IH. now destruct o.
Qed.

Lemma fold_defaults_other (l : list plist) (d : CaelusDict) (k : string) :
  (forall p, In p l -> plist_default p <> VNone -> plist_name p <> k) ->
  lookup
    (fold_left (fun d p =>
                  if negb (py_eq (plist_default p) VNone)
                  then set d (plist_name p) (plist_default p) else d) l d) k
  = lookup d k.
Proof.
  revert d. induction l as [|p l IH]; intros d H; simpl; auto.
  rewrite IH by (intros q Hq; apply H; now right).
  destruct (plist_default p) eqn:E; simpl; auto;
    apply lookup_set_other; intros E';
      apply (H p (or_introl eq_refl)); congruence.
Qed.

Lemma fold_defaults_same (l : list plist) (d : CaelusDict) (p : plist) :
  NoDup (map plist_name l) -> In p l -> plist_default p <> VNone ->
  lookup
    (fold_left (fun d p =>
                  if negb (py_eq (plist_default p) VNone)
                  then set d (plist_name p) (plist_default p) else d) l d)
    (plist_name p)
  = Some (plist_default p).
Proof.
  revert d. induction l as [|q l IH]; intros d Hnd Hin Hdef; [destruct Hin|].
  simpl in Hnd. inversion Hnd as [|? ? Hq Hl]; subst.
  destruct Hin as [->|Hin]; simpl.
  - rewrite fold_defaults_other.
    + destruct (plist_default p); simpl; try congruence;
        apply lookup_set_same.
    + intros r Hr _ E. apply Hq. rewrite <- E. now apply in_map.
  - now apply IH.
Qed.

End DefaultsFacts.

(** X1. The [create_default_entries] that [DictMeta] generates never
    raises. For a property list without repeated names it stores every
    default other than [None] under its name, whatever the data held there
    before, and it leaves every other key of the data as it was, in
    particular the properties whose default is [None]. *)
Theorem generated_defaults_overwrite
    (proplist : list dictfile.plist) (o : dictfile.obj) :
  NoDup (map dictfile.plist_name proplist) ->
  exists o',
    dictfile.generated_defaults proplist o = (Ok tt, o')
    /\ dictfile.header o' = dictfile.header o
    /\ dictfile.filename o' = dictfile.filename o
    /\ (forall p, In p proplist -> dictfile.plist_default p <> VNone ->
          lookup (dictfile.data o') (dictfile.plist_name p)
          = Some (dictfile.plist_default p))
    /\ (forall k,
          (forall p, In p proplist -> dictfile.plist_default p <> VNone ->
                     dictfile.plist_name p <> k) ->
          lookup (dictfile.data o') k = lookup (dictfile.data o) k).
Proof.
  intros Hnd. rewrite generated_defaults_data. eexists.
  split; [reflexivity|]. split; [reflexivity|]. split; [reflexivity|].
  simpl. split.
  - intros p Hin Hdef. now apply fold_defaults_same.
  - intros k Hk. now apply fold_defaults_other.
Qed.

(** A [ControlDict] whose [application] and [endTime] were edited: the
    defaults put [application] back and leave [endTime] alone. *)
Lemma generated_defaults_overwrite_witness :
  let o := dictfile.mk_obj dictfile.ControlDict "system/controlDict" VNone
             [("application", VStr "simpleSolver"); ("endTime", VInt 100)] in
  exists o',
    dictfile.create_default_entries dictfile.ControlDict o = (Ok tt, o')
    /\ lookup (dictfile.data o') "application" = Some (VStr "pisoSolver")
    /\ lookup (dictfile.data o') "endTime" = Some (VInt 100).
Proof.
  intros o.
  destruct (generated_defaults_overwrite
              (match dictfile._dict_properties dictfile.ControlDict with
               | Some l => l | None => [] end) o)
    as (o' & H1 & _ & _ & H2 & H3).
  - vm_compute. repeat constructor; simpl; intuition discriminate.
  - exists o'. split; [exact H1|]. split.
    + apply (H2 (dictfile.prop2 "application" (VStr "pisoSolver")));
        [simpl; auto|discriminate].
    + rewrite (H3 "endTime"); [reflexivity|].
      simpl. intros p Hp Hdef.
      repeat (destruct Hp as [<-|Hp]; [try discriminate; now elim Hdef|]).
      destruct Hp.
Defined.

(** X2. Every default that a class of the module declares for a property
    with valid values is one of these values: assigning to a property of a
    fresh object the value it already has never raises. *)
Theorem declared_defaults_are_valid
    (cls : dictfile.dict_class) (proplist : list dictfile.plist)
    (p : dictfile.plist) (opts : list value) :
  dictfile._dict_properties cls = Some proplist ->
  In p proplist ->
  dictfile.plist_options p = Some opts ->
  py_in (dictfile.plist_default p) opts = true
  /\ forall o, dictfile.setter cls p (dictfile.plist_default p) o
               = (Ok tt,
                  dictfile.set_data
                    (set (dictfile.data o) (dictfile.plist_name p)
                       (dictfile.plist_default p)) o).
Proof.
  intros Hcls Hin Hopts.
  assert (Hv : py_in (dictfile.plist_default p) opts = true
               /\ opts <> []).
  { destruct cls; simpl in Hcls; try discriminate;
      injection Hcls as <-; simpl in Hin;
      repeat (destruct Hin as [<-|Hin];
              [cbv in Hopts;
               first [discriminate
                     |injection Hopts as <-;
                      split; [reflexivity|discriminate]]|]);
      destruct Hin. }
  destruct Hv as [Hv Hne]. split; [exact Hv|].
  intros o. rewrite (setter_unfold cls p opts _ o Hopts Hne), Hv.
  reflexivity.
Qed.

Lemma declared_defaults_are_valid_witness :
  py_in (VStr "scotch")
    [VStr "scotch"; VStr "metis"; VStr "simple"; VStr "hierarchical";
     VStr "manual"] = true.
Proof.
  apply (declared_defaults_are_valid dictfile.DecomposeParDict
           [ dictfile.prop2 "numberOfSubdomains" (VInt 4);
             dictfile.prop3 "method" (VStr "scotch")
               [VStr "scotch"; VStr "metis"; VStr "simple";
                VStr "hierarchical"; VStr "manual"] ]
           (dictfile.prop3 "method" (VStr "scotch")
              [VStr "scotch"; VStr "metis"; VStr "simple";
               VStr "hierarchical"; VStr "manual"])
           _ eq_refl (or_intror (or_introl eq_refl)) eq_refl).
Defined.

(** X3. A property declared without valid values (or with an empty tuple
    of them) accepts every value: the setter never raises, the getter then
    returns the value, and the other keys keep their values. *)
Theorem unvalidated_setter_stores_any_value
    (cls : dictfile.dict_class) (p : dictfile.plist) (v : value)
    (o : dictfile.obj) :
  dictfile.plist_options p = None \/ dictfile.plist_options p = Some [] ->
  exists o',
    dictfile.setter cls p v o = (Ok tt, o')
    /\ dictfile.getter p o' = v
    /\ (forall k, k <> dictfile.plist_name p ->
          lookup (dictfile.data o') k = lookup (dictfile.data o) k).
Proof.
  intros H. eexists. split.
  - unfold dictfile.setter. destruct H as [-> | ->]; reflexivity.
  - split.
    + unfold dictfile.getter. simpl. apply get_set_same.
    + intros k Hk. simpl. now apply lookup_set_other.
Qed.

Lemma unvalidated_setter_stores_any_value_witness :
  exists o',
    dictfile.setter dictfile.ControlDict
      (dictfile.prop2 "application" (VStr "pisoSolver"))
      (VList [VInt 1; VNone])
      (snd (dictfile.init dictfile.ControlDict None true)) = (Ok tt, o')
    /\ dictfile.getter (dictfile.prop2 "application" (VStr "pisoSolver")) o'
       = VList [VInt 1; VNone].
Proof.
  destruct (unvalidated_setter_stores_any_value dictfile.ControlDict
              (dictfile.prop2 "application" (VStr "pisoSolver"))
              (VList [VInt 1; VNone])
              (snd (dictfile.init dictfile.ControlDict None true))
              (or_introl eq_refl)) as (o' & H1 & H2 & _).
  exists o'. split; assumption.
Defined.

(** X4. The constructor never raises. Without [populate_defaults] the data
    is empty for every class; with it the data holds exactly the declared
    defaults other than [None], in the order of declaration (those of
    [TurbModelProps] for its two subclasses, followed for [LESProperties] by
    [delta] and its coefficient block). In both cases the file name is the
    given one, or the default of the class when none or an empty one is
    given, and the header is the default header for that name. *)
Theorem init_data
    (cls : dictfile.dict_class) (fname : option string) (populate : bool) :
  exists o,
    dictfile.init cls fname populate = (Ok o, o)
    /\ dictfile.klass o = cls
    /\ dictfile.filename o = str_or fname (dictfile._default_filename cls)
    /\ dictfile.header o = VDict (dictfile.create_header o)
    /\ dictfile.data o
       = if populate then
           (map (fun p => (dictfile.plist_name p, dictfile.plist_default p))
                (filter (fun p => negb (py_eq (dictfile.plist_default p)
                                          VNone))
                        (match dictfile._dict_properties
                                 (match cls with
                                  | dictfile.RASProperties
                                  | dictfile.LESProperties =>
                                      dictfile.TurbModelProps
                                  | c => c
                                  end) with
                         | Some l => l
                         | None => []
                         end))
            ++ match cls with
               | dictfile.LESProperties =>
                   [("delta", VStr "cubeRootVol");
                    ("cubeRootVolCoeffs", VDict [("deltaCoeff", VInt 1)])]
               | _ => []
               end)%list
         else empty.
Proof.
  destruct populate.
  - destruct cls; eexists; repeat split.
  - eexists. repeat split.
Qed.

Section RemoveFacts.

Implicit Types (d : CaelusDict) (k : string).

Lemma lookup_remove_other d k k' :
  k' <> k -> lookup (remove d k) k' = lookup d k'.
Proof.
  intros Hne. induction d as [|[k0 v0] d IH]; simpl; auto.
  destruct (String.eqb k0 k) eqn:E; simpl.
  - apply String.eqb_eq in E. subst k0.
    destruct (String.eqb k k') eqn:E'; auto.
    apply String.eqb_eq in E'. congruence.
  - now rewrite IH.
Qed.

Lemma lookup_not_key d k : ~ In k (keys d) -> lookup d k = None.
Proof.
  induction d as [|[k0 v0] d IH]; simpl; auto.
  intros H. destruct (String.eqb k0 k) eqn:E.
  - apply String.eqb_eq in E. subst. elim H. now left.
  - apply IH. intros Hin. apply H. now right.
Qed.

Lemma lookup_remove_same d k :
  NoDup (keys d) -> lookup (remove d k) k = None.
Proof.
  induction d as [|[k0 v0] d IH]; simpl; auto.
  intros Hnd. inversion Hnd as [|? ? Hk Hd]; subst.
  destruct (String.eqb k0 k) eqn:E; simpl.
  - apply String.eqb_eq in E. subst. now apply lookup_not_key.
  - rewrite E. now apply IH.
Qed.

End RemoveFacts.

(** X5. When a file within the size limit parses to entries whose keys are
    distinct and which hold a [FoamFile] block, [load] takes that block out of
    the data: the header of the object is the block when it is true in
    Python's sense and [None] when it is not (an empty block), the data has
    no [FoamFile] key any more and holds every other entry with its value. *)
Theorem load_splits_FoamFile
    (w : dictfile.world) (cls : dictfile.dict_class) (fname : option string)
    (debug : bool) (name txt : string) (entries : CaelusDict) (h : value)
    (trace : list dictfile.event) :
  name = str_or fname (dictfile._default_filename cls) ->
  dictfile.path_exists w name = true ->
  (dictfile.getsize w name <= dictfile._size_limit)%Z ->
  dictfile.read_text w name = Ok txt ->
  dictfile.parse w txt name debug = Ok entries ->
  NoDup (keys entries) ->
  lookup entries "FoamFile" = Some h ->
  exists o trace',
    dictfile.load w cls fname debug trace = (Ok o, trace')
    /\ dictfile.filename o = name
    /\ dictfile.header o = (if truthy h then h else VNone)
    /\ lookup (dictfile.data o) "FoamFile" = None
    /\ (forall k, k <> "FoamFile" ->
          lookup (dictfile.data o) k = lookup entries k).
Proof.
  intros Hname Hex Hsize Hread Hparse Hnd Hh.
  unfold dictfile.load. rewrite <- Hname, Hex. simpl negb. cbv iota.
  assert (Hle : (dictfile.getsize w name >? dictfile._size_limit)%Z = false).
  { rewrite Z.gtb_ltb. apply Z.ltb_ge. exact Hsize. }
  unfold bind, dictfile.emit, dictfile.lift, modify, ret.
  rewrite Hle, Hread, Hparse. unfold pop, get. rewrite Hh.
  destruct (truthy h); eexists; eexists; (split; [reflexivity|]); simpl;
    (split; [reflexivity|]); (split; [reflexivity|]);
    (split; [now apply lookup_remove_same
            |intros k Hk; now apply lookup_remove_other]).
Qed.

Lemma load_splits_FoamFile_witness :
  exists o trace',
    dictfile.load samples.cased_RASProperties dictfile.RASProperties None
      false [] = (Ok o, trace')
    /\ dictfile.header o = VDict [("class", VStr "dictionary")]
    /\ lookup (dictfile.data o) "FoamFile" = None
    /\ lookup (dictfile.data o) "NONE" = Some (VStr "kEpsilon").
Proof.
  destruct (load_splits_FoamFile samples.cased_RASProperties
              dictfile.RASProperties None false "constant/RASProperties"
              "FoamFile { class dictionary; } NONE kEpsilon;"
              [("FoamFile", VDict [("class", VStr "dictionary")]);
               ("NONE", VStr "kEpsilon")]
              (VDict [("class", VStr "dictionary")]) [])
    as (o & tr & H1 & _ & H2 & H3 & H4); try reflexivity.
  - vm_compute. discriminate.
  - repeat constructor; simpl; intuition discriminate.
  - exists o, tr. split; [exact H1|]. split; [exact H2|].
    split; [exact H3|]. rewrite H4; [reflexivity|discriminate].
Defined.

(** X6. The errors of [load]. A path that does not exist raises [IOError]
    naming the path, and nothing is logged, read or parsed. For a file that
    is there and within the size limit, an error of the read or of the parser
    leaves [load] as it was raised and no object is returned; the read is
    recorded before it fails and the parser call before the parser fails. *)
Theorem load_errors
    (w : dictfile.world) (cls : dictfile.dict_class) (fname : option string)
    (debug : bool) (name : string) (trace : list dictfile.event) :
  name = str_or fname (dictfile._default_filename cls) ->
  (dictfile.path_exists w name = false ->
   dictfile.load w cls fname debug trace
   = (Raise (IOError ("Cannot find file: " ++ name)), trace))
  /\ (dictfile.path_exists w name = true ->
      (dictfile.getsize w name <= dictfile._size_limit)%Z ->
      forall e,
        dictfile.read_text w name = Raise e ->
        dictfile.load w cls fname debug trace
        = (Raise e, (trace ++ [dictfile.FileRead name])%list))
  /\ (dictfile.path_exists w name = true ->
      (dictfile.getsize w name <= dictfile._size_limit)%Z ->
      forall e txt,
        dictfile.read_text w name = Ok txt ->
        dictfile.parse w txt name debug = Raise e ->
        dictfile.load w cls fname debug trace
        = (Raise e, (trace ++ [dictfile.FileRead name;
                               dictfile.ParserCall txt name debug])%list)).
Proof.
  intros Hname. unfold dictfile.load. rewrite <- Hname.
  split; [|split].
  - intros Hex. now rewrite Hex.
  - intros Hex Hsize e Hread. rewrite Hex. simpl negb. cbv iota.
    assert (Hle : (dictfile.getsize w name >? dictfile._size_limit)%Z
                  = false).
    { rewrite Z.gtb_ltb. apply Z.ltb_ge. exact Hsize. }
    unfold bind, dictfile.emit, dictfile.lift, modify, ret.
    now rewrite Hle, Hread.
  - intros Hex Hsize e txt Hread Hparse. rewrite Hex. simpl negb. cbv iota.
    assert (Hle : (dictfile.getsize w name >? dictfile._size_limit)%Z
                  = false).
    { rewrite Z.gtb_ltb. apply Z.ltb_ge. exact Hsize. }
    unfold bind, dictfile.emit, dictfile.lift, modify, ret.
    rewrite Hle, Hread, Hparse. simpl. now rewrite <- app_assoc.
Qed.

Lemma load_errors_witness :
  dictfile.load samples.plain_controlDict dictfile.DecomposeParDict None
    false []
  = (Raise (IOError "Cannot find file: system/decomposeParDict"), [])
  /\ dictfile.load samples.unparsable dictfile.DictFile (Some "0/p") true []
     = (Raise (ParserError "unexpected end of file"),
        [dictfile.FileRead "0/p"; dictfile.ParserCall "a { b" "0/p" true]).
Proof.
  split.
  - destruct (load_errors samples.plain_controlDict
                dictfile.DecomposeParDict None false
                "system/decomposeParDict" [] eq_refl) as [H _].
    exact (H eq_refl).
  - destruct (load_errors samples.unparsable dictfile.DictFile (Some "0/p")
                true "0/p" [] eq_refl) as (_ & _ & H).
    apply (H eq_refl); [vm_compute; discriminate|reflexivity|reflexivity].
Defined.



(** X8. [write] changes nothing of the object but its file name, which
    becomes the given name when one is given. With [update_object] the
    header handed to the printer is the default header built for that name,
    of class [dictionary] and with the name's basename as [object], whatever
    header the object holds (one loaded from a file is not written back);
    without [update_object] it is the stored header, and without
    [write_header] there is none. The data handed over is the data of the
    object. *)
Theorem write_hands_over
    (fname : option string) (update_object write_header : bool)
    (o : dictfile.obj) :
  exists o' r,
    dictfile.write fname update_object write_header o = (Ok r, o')
    /\ dictfile.filename o' = str_or fname (dictfile.filename o)
    /\ dictfile.header o' = dictfile.header o
    /\ dictfile.data o' = dictfile.data o
    /\ dictfile.to_file r = dictfile.filename o'
    /\ dictfile.with_data r = dictfile.data o
    /\ (write_header = false -> dictfile.with_header r = VNone)
    /\ (write_header = true -> update_object = false ->
        dictfile.with_header r = dictfile.header o)
    /\ (write_header = true -> update_object = true ->
        exists hdr,
          dictfile.with_header r = VDict hdr
          /\ lookup hdr "class" = Some (VStr "dictionary")
          /\ lookup hdr "object"
             = Some (VStr (quoted (posixpath.basename
                                     (dictfile.filename o'))))).
Proof.
  eexists. eexists. split; [reflexivity|]. simpl.
  repeat (split; [reflexivity|]).
  split; [now intros ->|]. split; [now intros -> ->|].
  intros -> ->. eexists. split; [reflexivity|].
  match goal with |- context [dictfile.create_header ?x] =>
    destruct (create_header_fixed x) as (_ & _ & Hc & Ho & _) end.
  split; [exact Hc|exact Ho].
Qed.

Lemma write_hands_over_witness :
  exists o' r hdr,
    dictfile.write (Some "0/U.orig") true true
      (dictfile.mk_obj dictfile.DictFile "0/U"
         (VDict [("class", VStr "volVectorField")]) [("internalField", VInt 0)])
    = (Ok r, o')
    /\ dictfile.header o' = VDict [("class", VStr "volVectorField")]
    /\ dictfile.with_header r = VDict hdr
    /\ lookup hdr "class" = Some (VStr "dictionary").
Proof.
  destruct (write_hands_over (Some "0/U.orig") true true
              (dictfile.mk_obj dictfile.DictFile "0/U"
                 (VDict [("class", VStr "volVectorField")])
                 [("internalField", VInt 0)]))
    as (o' & r & H1 & _ & H2 & _ & _ & _ & _ & _ & H3).
  destruct (H3 eq_refl eq_refl) as (hdr & H4 & H5 & _).
  exists o', r, hdr. repeat split; assumption.
Defined.

(** X9. Assigning to [model] a value that is not a string raises
    [TypeError], but only after the value has been stored: the model entry of
    the data is changed by the failed assignment, and no coefficient block is
    created. *)
Theorem set_model_non_string_is_stored
    (v : value) (o : dictfile.obj) :
  (forall s, v <> VStr s) ->
  exists msg,
    dictfile.set_model v o
    = (Raise (TypeError msg),
       dictfile.set_data
         (set (dictfile.data o) (dictfile._model_name (dictfile.klass o)) v)
         o)
    /\ dictfile.model (snd (dictfile.set_model v o)) = v.
Proof.
  intros Hv.
  assert (E : dictfile.set_model v o
              = (Raise (TypeError "unsupported operand type(s) for +"),
                 dictfile.set_data
                   (set (dictfile.data o)
                      (dictfile._model_name (dictfile.klass o)) v) o)).
  { unfold dictfile.set_model, dictfile.coeffs, bind, get_state,
      dictfile.data_set, modify, dictfile.data_getitem, dictfile.lift, ret.
    simpl. rewrite lookup_set_same.
    destruct v; try reflexivity. now elim (Hv s). }
  eexists. split; [exact E|]. rewrite E. simpl.
  unfold dictfile.model. simpl. apply get_set_same.
Qed.

Lemma set_model_non_string_is_stored_witness :
  dictfile.model
    (snd (dictfile.set_model VNone
            (snd (dictfile.set_model (VStr "kEpsilon")
                    (snd (dictfile.init dictfile.RASProperties None true))))))
  = VNone.
Proof.
  destruct (set_model_non_string_is_stored VNone
              (snd (dictfile.set_model (VStr "kEpsilon")
                      (snd (dictfile.init dictfile.RASProperties None
                              true)))))
    as (msg & _ & H).
  - discriminate.
  - exact H.
Defined.

(** X10. Assigning to [delta] a value that is not a string raises
    [TypeError], but only after the value has been stored under [delta];
    nothing else of the data changes and no coefficient block is created. *)
Theorem set_delta_non_string_is_stored
    (v : value) (o : dictfile.obj) :
  (forall s, v <> VStr s) ->
  exists msg,
    dictfile.set_delta v o
    = (Raise (TypeError msg),
       dictfile.set_data (set (dictfile.data o) "delta" v) o).
Proof.
  intros Hv. eexists.
  unfold dictfile.set_delta, bind, get_state, dictfile.data_set, modify,
    dictfile.lift, ret.
  destruct v; try reflexivity. now elim (Hv s).
Qed.

Lemma set_delta_non_string_is_stored_witness :
  exists msg,
    dictfile.set_delta (VInt 2)
      (snd (dictfile.init dictfile.LESProperties None true))
    = (Raise (TypeError msg),
       dictfile.set_data
         [("turbulence", VStr "on"); ("printCoeffs", VStr "on");
          ("delta", VInt 2);
          ("cubeRootVolCoeffs", VDict [("deltaCoeff", VInt 1)])]
         (snd (dictfile.init dictfile.LESProperties None true))).
Proof.
  apply (set_delta_non_string_is_stored (VInt 2)
           (snd (dictfile.init dictfile.LESProperties None true))).
  discriminate.
Defined.

(** X11. After [model] has been assigned a string, reading [coeffs]
    returns the block stored under the model's coefficient key and changes
    nothing, and assigning the same model again changes nothing either. *)
Theorem coeffs_after_set_model
    (m : string) (o o1 : dictfile.obj) :
  dictfile.set_model (VStr m) o = (Ok tt, o1) ->
  exists blk,
    lookup (dictfile.data o1) (m ++ "Coeffs") = Some blk
    /\ dictfile.coeffs o1 = (Ok blk, o1)
    /\ dictfile.set_model (VStr m) o1 = (Ok tt, o1).
Proof.
  rewrite set_model_str. intros [= <-]. cbv zeta.
  remember (set (dictfile.data o) "NONE" (VStr m)) as d1 eqn:Ed1.
  remember (if contains d1 (m ++ "Coeffs") then d1
            else set d1 (m ++ "Coeffs") (VDict empty)) as d2 eqn:Ed2.
  assert (Hm : lookup d2 "NONE" = Some (VStr m)).
  { rewrite Ed2. destruct (contains d1 (m ++ "Coeffs")) eqn:E.
    - rewrite Ed1. apply lookup_set_same.
    - destruct (String.eqb_spec "NONE" (m ++ "Coeffs")) as [Heq|Hne].
      + rewrite <- Heq, Ed1 in E.
        now rewrite contains_set_same in E.
      + rewrite lookup_set_other by exact Hne.
        rewrite Ed1. apply lookup_set_same. }
  assert (Hc : exists blk, lookup d2 (m ++ "Coeffs") = Some blk).
  { rewrite Ed2. destruct (contains d1 (m ++ "Coeffs")) eqn:E.
    - unfold contains in E.
      destruct (lookup d1 (m ++ "Coeffs")); [eauto|discriminate].
    - rewrite lookup_set_same. eauto. }
  clear Ed1 Ed2.
  destruct Hc as [blk Hblk]. exists blk. simpl.
  assert (Hcont : contains d2 (m ++ "Coeffs") = true)
    by (unfold contains; now rewrite Hblk).
  assert (Hset : set d2 "NONE" (VStr m) = d2).
  { clear - Hm. induction d2 as [|[k v] d IH]; simpl in *; [discriminate|].
    destruct (String.eqb k "NONE"); [congruence|]. now rewrite IH. }
  split; [exact Hblk|]. split.
  - unfold dictfile.coeffs, bind, get_state, dictfile.data_getitem,
      dictfile.lift, dictfile.data_set, modify, ret, dictfile._model_name.
    simpl. rewrite Hm. simpl. rewrite Hcont. simpl. now rewrite Hblk.
  - rewrite set_model_str. simpl. rewrite Hset, Hcont.
    unfold dictfile.set_data. reflexivity.
Qed.

Lemma coeffs_after_set_model_witness :
  exists o1,
    dictfile.set_model (VStr "kOmegaSST")
      (snd (dictfile.init dictfile.RASProperties None true)) = (Ok tt, o1)
    /\ dictfile.coeffs o1 = (Ok (VDict empty), o1).
Proof.
  eexists. split; [reflexivity|].
  destruct (coeffs_after_set_model "kOmegaSST"
              (snd (dictfile.init dictfile.RASProperties None true)) _
              eq_refl) as (blk & H1 & H2 & _).
  rewrite H2. vm_compute in H1. now injection H1 as <-.
Defined.

(** X12. Reading [coeffs] while the model is unset (the getter [model]
    gives [None]) raises and changes nothing: the coefficient key cannot be
    computed. *)
Theorem coeffs_without_model_raises (o : dictfile.obj) :
  dictfile.model o = VNone ->
  exists e, dictfile.coeffs o = (Raise e, o).
Proof.
  unfold dictfile.model, get, dictfile._model_name. intros Hm.
  unfold dictfile.coeffs, bind, get_state, dictfile.data_getitem,
    dictfile.lift, dictfile._model_name.
  destruct (lookup (dictfile.data o) "NONE") as [v|].
  - subst v. eexists. reflexivity.
  - eexists. reflexivity.
Qed.

Lemma coeffs_without_model_raises_witness :
  exists e,
    dictfile.coeffs (snd (dictfile.init dictfile.RASProperties None true))
    = (Raise e, snd (dictfile.init dictfile.RASProperties None true)).
Proof.
  apply coeffs_without_model_raises. reflexivity.
Defined.

(* ===================================================================== *)
(** * Further properties of [caelus.config.cmlenv] *)
(* ===================================================================== *)

Section PathFacts.

Lemma has_sep_fix (sep : ascii) (t : string) :
  (fix has (t : string) : bool :=
     match t with
     | EmptyString => false
     | String d u => Ascii.eqb d sep || has u
     end) t = negb (no_char sep t).
Proof.
  induction t as [|d u IH]; simpl; auto.
  rewrite IH. now destruct (Ascii.eqb d sep).
Qed.

Lemma split_last_unfold (sep c : ascii) (r : string) :
  split_last sep (String c r)
  = if negb (no_char sep r) then split_last sep r
    else if Ascii.eqb c sep then r else String c r.
Proof. simpl. now rewrite has_sep_fix. Qed.

(** The text after the last separator holds no separator. *)
Lemma split_last_no_sep (sep : ascii) (s : string) :
  no_char sep (split_last sep s) = true.
Proof.
  induction s as [|c r IH]; [reflexivity|].
  rewrite split_last_unfold.
  destruct (no_char sep r) eqn:E; simpl; [|exact IH].
  destruct (Ascii.eqb c sep) eqn:Ec; [exact E|].
  simpl. now rewrite Ec, E.
Qed.

Lemma no_char_app_sep (sep : ascii) (a v : string) :
  no_char sep (a ++ String sep v) = false.
Proof.
  induction a as [|c a IH]; simpl.
  - now rewrite Ascii.eqb_refl.
  - rewrite IH. apply andb_false_r.
Qed.

Lemma split_last_after (sep : ascii) (a v : string) :
  no_char sep v = true -> split_last sep (a ++ String sep v) = v.
Proof.
  intros Hv. induction a as [|c a IH].
  - simpl append. rewrite split_last_unfold, Hv. simpl.
    now rewrite Ascii.eqb_refl.
  - simpl append. rewrite split_last_unfold, no_char_app_sep. simpl.
    exact IH.
Qed.

Lemma basename_no_slash (b : string) :
  has_slash b = false -> posixpath.basename b = b.
Proof.
  destruct b as [|c r]; simpl; auto.
  intros H. apply orb_false_elim in H. destruct H as [Hc Hr].
  now rewrite Hr, Hc.
Qed.

Lemma has_slash_app (a b : string) :
  has_slash (a ++ b) = has_slash a || has_slash b.
Proof.
  induction a as [|c a IH]; simpl; auto. rewrite IH. apply orb_assoc.
Qed.

Lemma basename_app_slash (a b : string) :
  has_slash b = false -> posixpath.basename (a ++ String "/" b) = b.
Proof.
  intros Hb. induction a as [|c a IH]; simpl.
  - now rewrite Hb.
  - rewrite has_slash_app. simpl. rewrite orb_true_r. exact IH.
Qed.

Lemma endswith_slash_split (r : string) :
  endswith_slash r = true -> exists a, r = a ++ "/".
Proof.
  induction r as [|c r IH]; [discriminate|].
  destruct r as [|c' r'].
  - simpl. unfold is_slash. intros H. apply Ascii.eqb_eq in H. subst.
    now exists "".
  - intros H. destruct (IH H) as [a Ha]. exists (String c a).
    simpl. now rewrite <- Ha.
Qed.

Lemma append_assoc (a b c : string) : (a ++ b) ++ c = a ++ (b ++ c).
Proof. induction a as [|x a IH]; simpl; auto. now rewrite IH. Qed.

(** The last component of [join r b] is [b] when [b] has no slash. *)
Lemma basename_join (r b : string) :
  has_slash b = false -> posixpath.basename (posixpath.join r b) = b.
Proof.
  intros Hb. unfold posixpath.join.
  assert (Hs : startswith "/" b = false).
  { destruct b as [|c b']; [reflexivity|]. simpl in Hb.
    apply orb_false_elim in Hb. destruct Hb as [Hc _].
    cbn [startswith]. rewrite Ascii.eqb_sym.
    change (Ascii.eqb c "/") with (is_slash c). now rewrite Hc. }
  rewrite Hs. destruct r as [|c r'].
  - cbn [negb str_truthy orb append]. now apply basename_no_slash.
  - cbn [negb str_truthy orb].
    destruct (endswith_slash (String c r')) eqn:E.
    + destruct (endswith_slash_split _ E) as [a Ha]. rewrite Ha.
      rewrite append_assoc. now apply basename_app_slash.
    + now apply basename_app_slash.
Qed.

Lemma str_truthy_app_r (a b : string) :
  str_truthy b = true -> str_truthy (a ++ b) = true.
Proof. destruct a; simpl; auto. Qed.

Lemma join_truthy (a b : string) :
  str_truthy b = true -> str_truthy (posixpath.join a b) = true.
Proof.
  intros Hb. unfold posixpath.join.
  destruct (startswith "/" b); [exact Hb|].
  destruct (negb (str_truthy a) || endswith_slash a).
  - now apply str_truthy_app_r.
  - apply str_truthy_app_r. reflexivity.
Qed.

End PathFacts.

Section HeaderPathFacts.

Lemma head_app_slash (a b : string) :
  has_slash b = false -> posixpath.head (a ++ String "/" b) = a ++ "/".
Proof.
  intros Hb. induction a as [|c a IH]; simpl.
  - now rewrite Hb.
  - rewrite has_slash_app. simpl. rewrite orb_true_r. now rewrite IH.
Qed.

Lemma head_no_slash (b : string) :
  has_slash b = false -> posixpath.head b = "".
Proof.
  destruct b as [|c r]; simpl; auto.
  intros H. apply orb_false_elim in H. destruct H as [Hc Hr].
  now rewrite Hr, Hc.
Qed.

Lemma all_slashes_app (a b : string) :
  all_slashes (a ++ b) = all_slashes a && all_slashes b.
Proof.
  induction a as [|c a IH]; simpl; auto. rewrite IH. apply andb_assoc.
Qed.

(** A string that is not empty and does not end with a slash is not made
    of slashes, and stripping the slashes after it gives it back. *)
Lemma no_trailing_slash (d : string) :
  str_truthy d = true -> endswith_slash d = false ->
  all_slashes d = false /\ rstrip_slash (d ++ "/") = d.
Proof.
  induction d as [|c r IH]; [discriminate|].
  intros _ He. destruct r as [|c' r'].
  - cbn [endswith_slash] in He. split.
    + cbn [all_slashes]. now rewrite He.
    + cbn [append rstrip_slash all_slashes]. rewrite He.
      change (is_slash "/") with true. reflexivity.
  - assert (He' : endswith_slash (String c' r') = false) by exact He.
    destruct (IH eq_refl He') as [Ha Hr].
    split.
    + change (all_slashes (String c (String c' r')))
        with (is_slash c && all_slashes (String c' r')).
      rewrite Ha. apply andb_false_r.
    + change (String c (String c' r') ++ "/")
        with (String c (String c' r' ++ "/")).
      cbn [rstrip_slash].
      change (all_slashes (String c (String c' r' ++ "/")))
        with (is_slash c && all_slashes (String c' r' ++ "/")).
      rewrite all_slashes_app, Ha. simpl andb. rewrite andb_false_r.
      now rewrite Hr.
Qed.

Lemma dirname_app_slash (d b : string) :
  str_truthy d = true -> endswith_slash d = false -> has_slash b = false ->
  posixpath.dirname (d ++ String "/" b) = d.
Proof.
  intros Hd He Hb. unfold posixpath.dirname.
  rewrite (head_app_slash d b Hb).
  destruct (no_trailing_slash d Hd He) as [Ha Hr].
  assert (Ht : str_truthy (d ++ "/") = true) by (destruct d; reflexivity).
  rewrite Ht, all_slashes_app, Ha. simpl. exact Hr.
Qed.

End HeaderPathFacts.

(** X13. The default header splits the file name: for a name [d/b], where
    [d] is not empty and does not end with a slash and [b] holds no slash, the
    header is [version], [format], [class], then [location] with [d] in
    quotes and [object] with [b] in quotes; for a name without a slash there
    is no [location] and [object] is the whole name in quotes. *)
Theorem create_header_splits_filename
    (o : dictfile.obj) (d b : string) :
  has_slash b = false ->
  (dictfile.filename o = d ++ String "/" b ->
   str_truthy d = true -> endswith_slash d = false ->
   dictfile.create_header o
   = [("version", VStr "2.0"); ("format", VStr "ascii");
      ("class", VStr "dictionary"); ("location", VStr (quoted d));
      ("object", VStr (quoted b))])
  /\ (dictfile.filename o = b ->
      dictfile.create_header o
      = [("version", VStr "2.0"); ("format", VStr "ascii");
         ("class", VStr "dictionary"); ("object", VStr (quoted b))]).
Proof.
  intros Hb. unfold dictfile.create_header. split.
  - intros -> Hd He.
    rewrite (basename_app_slash d b Hb), (dirname_app_slash d b Hd He Hb), Hd.
    reflexivity.
  - intros ->. rewrite (basename_no_slash b Hb).
    unfold posixpath.dirname. rewrite (head_no_slash b Hb). reflexivity.
Qed.

Lemma create_header_splits_filename_witness :
  dictfile.create_header
    (dictfile.mk_obj dictfile.ControlDict "run/case1/system/controlDict"
       VNone empty)
  = [("version", VStr "2.0"); ("format", VStr "ascii");
     ("class", VStr "dictionary");
     ("location", VStr (quoted "run/case1/system"));
     ("object", VStr (quoted "controlDict"))].
Proof.
  destruct (create_header_splits_filename
              (dictfile.mk_obj dictfile.ControlDict
                 "run/case1/system/controlDict" VNone empty)
              "run/case1/system" "controlDict" eq_refl) as [H _].
  apply H; reflexivity.
Defined.


(** X14. [discover_versions] returns one entry for every path of the glob,
    in the order of the glob and without dropping repeated versions; the path
    of an entry is the globbed path, no entry has a platform directory of its
    own, and no version it derives holds a dash. *)
Theorem discover_versions_one_entry_per_path
    (w : cmlenv.world) (root : option string) :
  map cmlenv.cfg_path (cmlenv.discover_versions w root)
  = map Some (cmlenv.glob w (posixpath.join (str_or root (cmlenv.caelus_root w))
                               "caelus-*"))
  /\ Forall (fun c => cmlenv.cfg_platform_install c = None
                      /\ no_char "-" (cmlenv.cfg_version c) = true)
            (cmlenv.discover_versions w root).
Proof.
  unfold cmlenv.discover_versions.
  induction (cmlenv.glob w _) as [|p l [IH1 IH2]]; simpl.
  - split; constructor.
  - split; [now rewrite IH1|].
    constructor; [|exact IH2]. simpl. split; [reflexivity|].
    apply split_last_no_sep.
Qed.

(** X15. A globbed directory [caelus-v] under any root, where [v] holds
    neither a dash nor a slash, is discovered with version [v] and with the
    directory as its path. *)
Theorem discover_versions_reads_version
    (w : cmlenv.world) (root : option string) (dir p v : string) :
  In p (cmlenv.glob w (posixpath.join (str_or root (cmlenv.caelus_root w))
                         "caelus-*")) ->
  p = posixpath.join dir ("caelus-" ++ v) ->
  no_char "-" v = true ->
  has_slash v = false ->
  In (cmlenv.mk_cfg v (Some p) None) (cmlenv.discover_versions w root).
Proof.
  intros Hin Hp Hdash Hslash. unfold cmlenv.discover_versions.
  apply in_map_iff. exists p. split; [|exact Hin].
  f_equal. rewrite Hp, basename_join.
  - change ("caelus-" ++ v) with ("caelus" ++ String "-" v).
    now apply split_last_after.
  - simpl. exact Hslash.
Qed.

Lemma discover_versions_reads_version_witness :
  In (cmlenv.mk_cfg "2.0" (Some "/opt/Caelus/caelus-2.0") None)
     (cmlenv.discover_versions samples.two_installs None).
Proof.
  apply (discover_versions_reads_version samples.two_installs None
           "/opt/Caelus" "/opt/Caelus/caelus-2.0" "2.0").
  - vm_compute. auto.
  - reflexivity.
  - reflexivity.
  - reflexivity.
Defined.

(** X16. [_filter_invalid_versions] keeps exactly the configured entries
    that have a version and whose directory exists, the explicit path when
    one is given and [caelus-<version>] under the default root otherwise;
    the version of a kept entry is the string of the configured one. *)
Theorem filter_keeps_existing_directories
    (w : cmlenv.world) (cml_cfg : list cmlenv.raw_cfg) (c : cmlenv.CaelusCfg) :
  (In c (cmlenv._filter_invalid_versions w cml_cfg) <->
   exists ver vid,
     In ver cml_cfg
     /\ cmlenv.raw_version ver = Some vid
     /\ cmlenv.path_exists w
          (match cmlenv.raw_path ver with
           | Some p => p
           | None => posixpath.join (cmlenv.caelus_root w)
                       ("caelus-" ++ cmlenv.py_str vid)
           end) = true
     /\ c = cmlenv.mk_cfg (cmlenv.py_str vid) (cmlenv.raw_path ver)
              (cmlenv.raw_platform_install ver))
  /\ length (cmlenv._filter_invalid_versions w cml_cfg) <= length cml_cfg.
Proof.
  induction cml_cfg as [|ver rest [IH1 IH2]]; simpl.
  - split; [|lia]. split; [intros []|]. intros (? & ? & [] & _).
  - destruct (cmlenv.raw_version ver) as [vid|] eqn:Ev.
    + destruct (cmlenv.path_exists w _) eqn:Ex; simpl.
      * split; [|lia]. split.
        -- intros [<-|Hin].
           ++ exists ver, vid. repeat split; auto.
           ++ apply IH1 in Hin. destruct Hin as (v' & i' & H1 & H2).
              exists v', i'. split; [now right|exact H2].
        -- intros (v' & i' & [<-|H1] & H2 & H3 & H4).
           ++ left. rewrite Ev in H2. injection H2 as <-. now subst c.
           ++ right. apply IH1. exists v', i'. auto.
      * split; [|lia]. split.
        -- intros Hin. apply IH1 in Hin. destruct Hin as (v' & i' & H1 & H2).
           exists v', i'. split; [now right|exact H2].
        -- intros (v' & i' & [<-|H1] & H2 & H3 & H4).
           ++ rewrite Ev in H2. injection H2 as <-. congruence.
           ++ apply IH1. exists v', i'. auto.
    + split; [|lia]. split.
      * intros Hin. apply IH1 in Hin. destruct Hin as (v' & i' & H1 & H2).
        exists v', i'. split; [now right|exact H2].
      * intros (v' & i' & [<-|H1] & H2 & H3 & H4).
        -- congruence.
        -- apply IH1. exists v', i'. auto.
Qed.

Section PlatformFacts.

Import cmlenv.

Lemma candidates_truthy (os base p : string) :
  In p (candidates os base) -> str_truthy p = true.
Proof.
  change (candidates os base)
    with (map (fun n => posixpath.join base (os ++ n)) design.probe_order).
  intros H. apply in_map_iff in H. destruct H as (n & <- & Hn).
  apply join_truthy, str_truthy_app_r.
  assert (F : Forall (fun n => str_truthy n = true) design.probe_order)
    by (repeat constructor).
  rewrite Forall_forall in F. now apply F.
Qed.

Lemma find_none_iff {A} (f : A -> bool) (l : list A) :
  find f l = None <-> forall x, In x l -> f x = false.
Proof.
  split; [apply find_none|].
  induction l as [|x l IH]; simpl; auto.
  intros H. rewrite (H x (or_introl eq_refl)). apply IH.
  intros y Hy. apply H. now right.
Qed.

(** The search finds a candidate that exists, or nothing. *)
Lemma platform_dir_sound (w : world) (root_path p : string) :
  _determine_platform_dir w root_path = Some p ->
  In p (candidates (ostype w) (posixpath.join root_path "platforms"))
  /\ path_exists w p = true
  /\ str_truthy p = true.
Proof.
  unfold _determine_platform_dir.
  destruct (path_exists w (posixpath.join root_path "platforms"));
    [|discriminate].
  cbn [negb]. intros H. apply find_some in H. destruct H as [H1 H2].
  repeat split; auto. eapply candidates_truthy; eauto.
Qed.

(** The environment of an entry does not depend on the state in which it
    is built, and building it changes nothing but the log. *)
Lemma CMLEnv_init_env (w : world) (cfg : CaelusCfg) (s : mgr) :
  exists lg,
    CMLEnv_init w cfg s
    = (Ok (env_of w cfg),
       mk_mgr (cml_versions s) (did_init s) (log s ++ lg)%list).
Proof.
  unfold env_of, CMLEnv_init.
  destruct (match cfg_platform_install cfg with
            | Some b => Some b
            | None => _determine_platform_dir w _
            end) as [b|].
  - destruct (str_truthy b).
    + exists []. rewrite app_nil_r. now destruct s.
    + eexists [_]. reflexivity.
  - eexists [_]. reflexivity.
Qed.

End PlatformFacts.

(** X17. The build-directory search gives nothing exactly when the
    [platforms] directory is missing or none of the candidates exists in it;
    what it gives otherwise is one of the candidates, and it exists. *)
Theorem platform_dir_none_iff (w : cmlenv.world) (root_path : string) :
  (cmlenv._determine_platform_dir w root_path = None <->
   cmlenv.path_exists w (posixpath.join root_path "platforms") = false
   \/ forall c,
        In c (cmlenv.candidates (cmlenv.ostype w)
                (posixpath.join root_path "platforms")) ->
        cmlenv.path_exists w c = false)
  /\ (forall p,
        cmlenv._determine_platform_dir w root_path = Some p ->
        In p (cmlenv.candidates (cmlenv.ostype w)
                (posixpath.join root_path "platforms"))
        /\ cmlenv.path_exists w p = true).
Proof.
  split.
  - unfold cmlenv._determine_platform_dir.
    destruct (cmlenv.path_exists w (posixpath.join root_path "platforms"));
      cbn [negb].
    + rewrite find_none_iff. split; [now right|].
      intros [H|H]; [discriminate|exact H].
    + split; auto.
  - intros p H. apply platform_dir_sound in H. tauto.
Qed.

(** X18. For an environment built from an entry without a platform
    directory of its own, in a file system that has not changed since,
    [build_dir] returns the directory the search finds, and [bin_dir] and
    [lib_dir] are its [bin] and [lib] entries; when the search finds nothing
    all three raise [IOError]. *)
Theorem build_dir_of_searched_environment
    (w : cmlenv.world) (cfg : cmlenv.CaelusCfg) :
  cmlenv.cfg_platform_install cfg = None ->
  match cmlenv._determine_platform_dir w
          (cmlenv.project_dir (env_of w cfg)) with
  | Some p =>
      cmlenv.build_dir w (env_of w cfg) = Ok p
      /\ cmlenv.bin_dir w (env_of w cfg) = Ok (posixpath.join p "bin")
      /\ cmlenv.lib_dir w (env_of w cfg) = Ok (posixpath.join p "lib")
  | None =>
      exists msg,
        cmlenv.build_dir w (env_of w cfg) = Raise (IOError msg)
        /\ cmlenv.bin_dir w (env_of w cfg) = Raise (IOError msg)
        /\ cmlenv.lib_dir w (env_of w cfg) = Raise (IOError msg)
  end.
Proof.
  intros Hnone.
  unfold cmlenv.bin_dir, cmlenv.lib_dir, cmlenv.build_dir,
    cmlenv.project_dir, env_of, cmlenv.CMLEnv_init.
  rewrite Hnone.
  set (project :=
         match cmlenv.cfg_path cfg with
         | Some p => p
         | None => posixpath.join (cmlenv.caelus_root w)
                     ("caelus-" ++ cmlenv.cfg_version cfg)
         end).
  destruct (cmlenv._determine_platform_dir w project) as [p|] eqn:E.
  - destruct (platform_dir_sound w project p E) as (_ & Hex & Ht).
    rewrite Ht. simpl. rewrite E, Ht, Hex. simpl. auto.
  - simpl. rewrite E. simpl. eexists. repeat split.
Qed.

Lemma build_dir_of_searched_environment_witness :
  cmlenv.bin_dir samples.three_versions
    (env_of samples.three_versions (cmlenv.mk_cfg "4.10" None None))
  = Ok "/opt/Caelus/caelus-4.10/platforms/linux64g++DPOpt/bin".
Proof.
  pose proof (build_dir_of_searched_environment samples.three_versions
                (cmlenv.mk_cfg "4.10" None None) eq_refl) as H.
  vm_compute in H. destruct H as (_ & H & _). vm_compute. exact H.
Defined.

(** X19. A platform directory given in the entry itself is taken without
    a look at the disk: the constructor stores it when it is not empty,
    whatever the search would find, and [build_dir] then returns it if it
    exists at the time of the access and raises [IOError] if it does not. *)
Theorem explicit_platform_install_is_not_checked
    (w : cmlenv.world) (cfg : cmlenv.CaelusCfg) (b : string) :
  cmlenv.cfg_platform_install cfg = Some b ->
  str_truthy b = true ->
  cmlenv._build_dir (env_of w cfg) = b
  /\ (cmlenv.path_exists w b = true ->
      cmlenv.build_dir w (env_of w cfg) = Ok b)
  /\ (cmlenv.path_exists w b = false ->
      exists msg, cmlenv.build_dir w (env_of w cfg) = Raise (IOError msg)).
Proof.
  intros Hb Ht.
  assert (E : cmlenv._build_dir (env_of w cfg) = b).
  { unfold env_of, cmlenv.CMLEnv_init. rewrite Hb, Ht. reflexivity. }
  split; [exact E|]. unfold cmlenv.build_dir. rewrite E, Ht. simpl.
  split; intros ->; simpl; eauto.
Qed.

Lemma explicit_platform_install_is_not_checked_witness :
  exists msg,
    cmlenv.build_dir samples.three_versions
      (env_of samples.three_versions
         (cmlenv.mk_cfg "4.10" None (Some "/opt/build/linux64g++DPOpt")))
    = Raise (IOError msg).
Proof.
  destruct (explicit_platform_install_is_not_checked samples.three_versions
              (cmlenv.mk_cfg "4.10" None (Some "/opt/build/linux64g++DPOpt"))
              "/opt/build/linux64g++DPOpt" eq_refl eq_refl) as (_ & _ & H).
  exact (H eq_refl).
Defined.

(** X20. Every configured entry that passes the filter becomes an
    environment whose project directory exists: the directory the filter
    tested is the one the constructor takes. Its root is the parent of that
    directory and its version the entry's. *)
Theorem filtered_environment_has_project_dir
    (w : cmlenv.world) (cml_cfg : list cmlenv.raw_cfg)
    (c : cmlenv.CaelusCfg) :
  In c (cmlenv._filter_invalid_versions w cml_cfg) ->
  cmlenv.path_exists w (cmlenv.project_dir (env_of w c)) = true
  /\ cmlenv.root (env_of w c)
     = posixpath.dirname (cmlenv.project_dir (env_of w c))
  /\ cmlenv.version (env_of w c) = cmlenv.cfg_version c.
Proof.
  intros Hin.
  assert (Hp : cmlenv.path_exists w
                 (match cmlenv.cfg_path c with
                  | Some p => p
                  | None => posixpath.join (cmlenv.caelus_root w)
                              ("caelus-" ++ cmlenv.cfg_version c)
                  end) = true).
  { induction cml_cfg as [|ver rest IH]; simpl in Hin; [destruct Hin|].
    destruct (cmlenv.raw_version ver) as [vid|]; [|now apply IH].
    destruct (cmlenv.path_exists w _) eqn:Ex; [|now apply IH].
    destruct Hin as [<-|Hin]; [exact Ex|now apply IH]. }
  destruct (CMLEnv_init_env w c cmlenv.mgr0) as [lg Hinit].
  unfold env_of, cmlenv.project_dir, cmlenv.root, cmlenv.version.
  unfold cmlenv.CMLEnv_init in *.
  destruct (match cmlenv.cfg_platform_install c with
            | Some b => Some b
            | None => cmlenv._determine_platform_dir w _
            end) as [b|]; [destruct (str_truthy b)|]; simpl; auto.
Qed.

Lemma filtered_environment_has_project_dir_witness :
  cmlenv.path_exists samples.three_versions "/opt/Caelus/caelus-42.0" = true
  /\ cmlenv.root (env_of samples.three_versions
                    (cmlenv.mk_cfg "42.0" None None)) = "/opt/Caelus".
Proof.
  destruct (filtered_environment_has_project_dir samples.three_versions
              (cmlenv.versions samples.three_versions)
              (cmlenv.mk_cfg "42.0" None None)) as (H1 & H2 & _).
  - vm_compute. auto.
  - split; [exact H1|]. rewrite H2. reflexivity.
Defined.

Section RegistryInvariant.

Import cmlenv.

Implicit Types (d : list (string * CMLEnv)) (k : string).

Lemma env_of_version (w : world) (c : CaelusCfg) :
  _version (env_of w c) = cfg_version c.
Proof.
  destruct (CMLEnv_init_ok w c mgr0) as (e & lg & H & Hv).
  unfold env_of. now rewrite H.
Qed.

Lemma dict_get_set_same d k e : dict_get (dict_set d k e) k = Some e.
Proof.
  induction d as [|[k' e'] d IH]; simpl.
  - now rewrite String.eqb_refl.
  - destruct (String.eqb k' k) eqn:E; simpl; rewrite E; auto.
Qed.

Lemma dict_get_set_other d k k' e :
  k' <> k -> dict_get (dict_set d k e) k' = dict_get d k'.
Proof.
  intros Hne. induction d as [|[k0 e0] d IH]; simpl.
  - destruct (String.eqb k k') eqn:E; auto.
    apply String.eqb_eq in E. congruence.
  - destruct (String.eqb k0 k) eqn:E; simpl.
    + apply String.eqb_eq in E. subst k0.
      destruct (String.eqb k k') eqn:E'; auto.
      apply String.eqb_eq in E'. congruence.
    + now rewrite IH.
Qed.

Lemma dict_set_keys d k e :
  map fst (dict_set d k e)
  = if existsb (String.eqb k) (map fst d) then map fst d
    else (map fst d ++ [k])%list.
Proof.
  induction d as [|[k0 e0] d IH]; simpl; auto.
  destruct (String.eqb k0 k) eqn:E; simpl.
  - rewrite String.eqb_sym, E. reflexivity.
  - rewrite String.eqb_sym, E. simpl. rewrite IH.
    now destruct (existsb (String.eqb k) (map fst d)).
Qed.

Lemma existsb_eqb_In k (l : list string) :
  existsb (String.eqb k) l = true <-> In k l.
Proof.
  rewrite existsb_exists. split.
  - intros (x & Hx & E). apply String.eqb_eq in E. now subst.
  - intros H. exists k. split; auto. apply String.eqb_refl.
Qed.

Lemma dict_set_wf d k e :
  _version e = k -> registry_wf d -> registry_wf (dict_set d k e).
Proof.
  intros Hv [Hk Hnd]. split.
  - clear Hnd. induction d as [|[k0 e0] d IH]; simpl.
    + repeat constructor. exact Hv.
    + inversion Hk as [|? ? Hh Ht]. destruct (String.eqb k0 k) eqn:E.
      * apply String.eqb_eq in E. constructor; [simpl; congruence|exact Ht].
      * constructor; auto.
  - rewrite dict_set_keys.
    destruct (existsb (String.eqb k) (map fst d)) eqn:E; [exact Hnd|].
    assert (Hn : ~ In k (map fst d)).
    { intros H. apply existsb_eqb_In in H. congruence. }
    clear E. induction (map fst d) as [|x l IH]; simpl.
    + repeat constructor. auto.
    + inversion Hnd as [|? ? Hx Hl]. constructor.
      * rewrite in_app_iff. intros [Hi|[Hi|[]]]; [auto|].
        apply Hn. now left.
      * apply IH; auto. intros Hi. apply Hn. now right.
Qed.

Lemma register_all_wf (w : world) (cfgs : list CaelusCfg) d :
  registry_wf d -> registry_wf (register_all w cfgs d).
Proof.
  revert d. induction cfgs as [|c cfgs IH]; intros d H; simpl; auto.
  apply IH. apply dict_set_wf; [apply env_of_version|exact H].
Qed.

Lemma register_eq (e : CMLEnv) (s : mgr) :
  register e s
  = (Ok tt, mk_mgr (dict_set (cml_versions s) (_version e) e) (did_init s)
              (log s)).
Proof. reflexivity. Qed.

(** The loop of the population step, as a function of the registry. *)
Lemma populate_registry (w : world) (cfgs : list CaelusCfg) (s : mgr) :
  exists lg,
    for_each cfgs
      (fun cml => (cenv <- CMLEnv_init w cml ;; register cenv)%py) s
    = (Ok tt,
       mk_mgr (register_all w cfgs (cml_versions s)) (did_init s)
         (log s ++ lg)%list).
Proof.
  revert s. induction cfgs as [|c cfgs IH]; intros s.
  - exists []. rewrite app_nil_r. now destruct s.
  - destruct (CMLEnv_init_env w c s) as [lg1 H1].
    cbn [for_each]. rewrite !bind_eq, H1, register_eq.
    cbn [cml_versions did_init log].
    match goal with |- context [for_each cfgs _ ?st] =>
      destruct (IH st) as [lg2 H2] end.
    cbn [cml_versions did_init log] in H2.
    rewrite H2. exists (lg1 ++ lg2)%list.
    rewrite env_of_version, app_assoc. reflexivity.
Qed.

(** The population step, as a function of the registry. *)
Lemma init_registry (w : world) (s : mgr) :
  exists lg,
    _init_cml_versions w s
    = (Ok tt,
       mk_mgr (register_all w (population_source w) (cml_versions s)) true
         (log s ++ lg)%list).
Proof.
  unfold _init_cml_versions, population_source.
  destruct (nonempty (versions w)).
  - cbn [andb].
    destruct (nonempty (_filter_invalid_versions w (versions w)));
      cbn [negb]; rewrite !bind_eq.
    + unfold ret at 1.
      destruct (populate_registry w (_filter_invalid_versions w (versions w))
                  s) as [lg H].
      rewrite H. exists lg. reflexivity.
    + unfold emit, modify.
      match goal with |- context [for_each ?l _ ?st] =>
        destruct (populate_registry w l st) as [lg H] end.
      rewrite H. eexists (_ :: lg). simpl.
      rewrite <- app_assoc. reflexivity.
  - rewrite !bind_eq.
    destruct (populate_registry w (discover_versions w None) s) as [lg H].
    rewrite H. exists lg. reflexivity.
Qed.

Lemma register_all_get_other (w : world) (cfgs : list CaelusCfg) d k :
  names_version k cfgs = false ->
  dict_get (register_all w cfgs d) k = dict_get d k.
Proof.
  revert d. induction cfgs as [|c cfgs IH]; intros d H; simpl in *; auto.
  apply orb_false_elim in H. destruct H as [Hc Hr].
  rewrite IH by exact Hr. apply dict_get_set_other.
  intros ->. now rewrite String.eqb_refl in Hc.
Qed.

Lemma register_all_get_last (w : world) (l1 l2 : list CaelusCfg)
    (c : CaelusCfg) d :
  names_version (cfg_version c) l2 = false ->
  dict_get (register_all w (l1 ++ c :: l2) d) (cfg_version c)
  = Some (env_of w c).
Proof.
  intros H. unfold register_all. rewrite fold_left_app. simpl.
  fold (register_all w l1 d).
  fold (register_all w l2
          (dict_set (register_all w l1 d) (cfg_version c) (env_of w c))).
  rewrite register_all_get_other by exact H. apply dict_get_set_same.
Qed.

Lemma register_all_get_bound (w : world) (cfgs : list CaelusCfg) d d' k :
  names_version k cfgs = true ->
  dict_get (register_all w cfgs d) k = dict_get (register_all w cfgs d') k.
Proof.
  revert d d'. induction cfgs as [|c cfgs IH]; intros d d' H;
    simpl in *; [discriminate|].
  destruct (names_version k cfgs) eqn:Er.
  - now apply IH.
  - rewrite orb_false_r in H. apply String.eqb_eq in H. subst k.
    rewrite !register_all_get_other by exact Er.
    now rewrite !dict_get_set_same.
Qed.

Lemma register_all_keys_present (w : world) (cfgs : list CaelusCfg) d :
  (forall c, In c cfgs -> In (cfg_version c) (map fst d)) ->
  map fst (register_all w cfgs d) = map fst d.
Proof.
  revert d. induction cfgs as [|c cfgs IH]; intros d H; simpl; auto.
  assert (Hk : map fst (dict_set d (cfg_version c) (env_of w c)) = map fst d).
  { rewrite dict_set_keys.
    now rewrite (proj2 (existsb_eqb_In _ _) (H c (or_introl eq_refl))). }
  rewrite IH; [exact Hk|]. intros c' Hc'. rewrite Hk. apply H. now right.
Qed.

Lemma dict_set_keeps_keys d k e k' :
  In k' (map fst d) -> In k' (map fst (dict_set d k e)).
Proof.
  rewrite dict_set_keys.
  destruct (existsb _ _); [auto|]. intros H. apply in_or_app. now left.
Qed.

Lemma dict_set_has_key d k e : In k (map fst (dict_set d k e)).
Proof.
  rewrite dict_set_keys. destruct (existsb _ _) eqn:E.
  - now apply existsb_eqb_In.
  - apply in_or_app. right. now left.
Qed.

Lemma register_all_keeps_keys (w : world) (cfgs : list CaelusCfg) d k :
  In k (map fst d) -> In k (map fst (register_all w cfgs d)).
Proof.
  revert d. induction cfgs as [|c cfgs IH]; intros d H; simpl; auto.
  apply IH. now apply dict_set_keeps_keys.
Qed.

Lemma register_all_has_keys (w : world) (cfgs : list CaelusCfg) d c :
  In c cfgs -> In (cfg_version c) (map fst (register_all w cfgs d)).
Proof.
  revert d. induction cfgs as [|c0 cfgs IH]; intros d H; [destruct H|].
  simpl. destruct H as [->|H].
  - apply register_all_keeps_keys, dict_set_has_key.
  - now apply IH.
Qed.

Lemma dict_get_not_key d k : ~ In k (map fst d) -> dict_get d k = None.
Proof.
  induction d as [|[k0 e0] d IH]; simpl; auto.
  intros H. destruct (String.eqb k0 k) eqn:E.
  - apply String.eqb_eq in E. subst. elim H. now left.
  - apply IH. intros Hin. apply H. now right.
Qed.

(** Two registries with the same keys in the same order, the keys distinct,
    and the same lookups are equal. *)
Lemma registry_ext d d' :
  NoDup (map fst d) -> map fst d = map fst d' ->
  (forall k, dict_get d k = dict_get d' k) -> d = d'.
Proof.
  revert d'. induction d as [|[k e] d IH]; intros [|[k' e'] d'] Hnd Hk Hg;
    simpl in Hk; try discriminate; auto.
  injection Hk as <- Hk. inversion Hnd as [|? ? Hn Hnd']; subst.
  pose proof (Hg k) as Hgk. simpl in Hgk. rewrite String.eqb_refl in Hgk.
  injection Hgk as <-. f_equal. apply IH; auto.
  intros k0. destruct (String.eqb_spec k k0) as [<-|Hne].
  - rewrite !dict_get_not_key; auto. now rewrite <- Hk.
  - pose proof (Hg k0) as H0. simpl in H0.
    destruct (String.eqb_spec k k0); [contradiction|exact H0].
Qed.

Lemma register_all_idempotent (w : world) (cfgs : list CaelusCfg) d :
  registry_wf d ->
  register_all w cfgs (register_all w cfgs d) = register_all w cfgs d.
Proof.
  intros Hwf.
  pose proof (register_all_wf w cfgs d Hwf) as Hwf1.
  pose proof (register_all_wf w cfgs _ Hwf1) as Hwf2.
  apply registry_ext.
  - apply Hwf2.
  - apply register_all_keys_present. intros c Hc.
    now apply register_all_has_keys.
  - intros k. destruct (names_version k cfgs) eqn:E.
    + now apply register_all_get_bound.
    + now apply register_all_get_other.
Qed.

Lemma dict_get_wf d k e :
  registry_wf d -> dict_get d k = Some e -> _version e = k.
Proof.
  intros [Hk _]. induction d as [|[k0 e0] d IH]; simpl; [discriminate|].
  inversion Hk; subst. destruct (String.eqb k0 k) eqn:E.
  - apply String.eqb_eq in E. intros [= <-]. now subst.
  - now apply IH.
Qed.

End RegistryInvariant.

Section AccessFacts.

Import cmlenv.

Lemma init_state (w : world) (s : mgr) :
  cml_versions (snd (_init_cml_versions w s))
  = register_all w (population_source w) (cml_versions s)
  /\ fst (_init_cml_versions w s) = Ok tt
  /\ did_init (snd (_init_cml_versions w s)) = true.
Proof.
  destruct (init_registry w s) as [lg H]. rewrite H. now repeat split.
Qed.

Lemma guard_cases (s : mgr) :
  (cml_versions s = [] /\ did_init s = true)
  \/ (cml_versions s <> [] \/ did_init s = false).
Proof.
  destruct (cml_versions s); [|right; left; discriminate].
  destruct (did_init s); auto.
Qed.

Lemma init_or_fail_after (w : world) (s : mgr) :
  cml_versions s <> [] \/ did_init s = false ->
  init_or_fail w s = (Ok tt, snd (_init_cml_versions w s)).
Proof.
  intros H. rewrite (init_or_fail_runs w s H).
  destruct (init_state w s) as (_ & H1 & _).
  destruct (_init_cml_versions w s) as [r s1]. simpl in *. now subst.
Qed.

(** The state an access leaves is the state it found or the state after a
    population step. *)
Lemma get_latest_state (w : world) (s : mgr) :
  snd (_get_latest_version w s) = s
  \/ snd (_get_latest_version w s) = snd (_init_cml_versions w s).
Proof.
  destruct (guard_cases s) as [[H1 H2]|H].
  - left. destruct (access_after_empty_init w s None H1 H2) as [E _].
    now rewrite E.
  - right. rewrite (get_latest_after_init w s _ (init_or_fail_after w s H)).
    destruct (LooseVersion.sorted_reverse _); [reflexivity|].
    apply registry_getitem_state.
Qed.

Lemma get_version_state (w : world) (version : option string) (s : mgr) :
  snd (_get_version w version s) = s
  \/ snd (_get_version w version s) = snd (_init_cml_versions w s)
  \/ snd (_get_version w version s)
     = snd (_init_cml_versions w (snd (_init_cml_versions w s))).
Proof.
  destruct (guard_cases s) as [[H1 H2]|H].
  - left. destruct (access_after_empty_init w s version H1 H2) as [_ E].
    now rewrite E.
  - right. unfold _get_version.
    rewrite bind_eq, (init_or_fail_after w s H).
    destruct (String.eqb _ "latest").
    + destruct (get_latest_state w (snd (_init_cml_versions w s))) as [E|E];
        rewrite E; auto.
    + left. rewrite bind_eq. unfold get_state.
      destruct (dict_get _ _); simpl; [|reflexivity].
      apply registry_getitem_state.
Qed.

Lemma init_wf (w : world) (s : mgr) :
  registry_wf (cml_versions s) ->
  registry_wf (cml_versions (snd (_init_cml_versions w s))).
Proof.
  intros H. destruct (init_state w s) as (E & _). rewrite E.
  now apply register_all_wf.
Qed.

Lemma registry_getitem_ok (k : string) (s s' : mgr) (e : CMLEnv) :
  registry_getitem k s = (Ok e, s') ->
  s' = s /\ dict_get (cml_versions s) k = Some e.
Proof.
  unfold registry_getitem. destruct (dict_get (cml_versions s) k);
    intros [= <- <-]. auto.
Qed.

Lemma get_latest_registered (w : world) (s s' : mgr) (e : CMLEnv) :
  registry_wf (cml_versions s) ->
  _get_latest_version w s = (Ok e, s') ->
  registry_wf (cml_versions s')
  /\ dict_get (cml_versions s') (_version e) = Some e.
Proof.
  intros Hwf Hget. destruct (guard_cases s) as [[H1 H2]|H].
  - destruct (access_after_empty_init w s None H1 H2) as [E _].
    rewrite E in Hget. discriminate.
  - rewrite (get_latest_after_init w s _ (init_or_fail_after w s H)) in Hget.
    destruct (LooseVersion.sorted_reverse _) as [|v r]; [discriminate|].
    apply registry_getitem_ok in Hget. destruct Hget as [-> Hg].
    pose proof (init_wf w s Hwf) as Hwf1. split; [exact Hwf1|].
    now rewrite (dict_get_wf _ _ _ Hwf1 Hg).
Qed.

End AccessFacts.

(** X21. The registry keeps its invariant: if every key is the version of
    the environment stored under it and no key occurs twice, this still holds
    after the population step and after every access, whatever its outcome.
    The empty registry of a new process has the property. *)
Theorem registry_invariant_is_kept
    (w : cmlenv.world) (s : cmlenv.mgr) (version : option string) :
  registry_wf (cmlenv.cml_versions s) ->
  registry_wf (cmlenv.cml_versions (snd (cmlenv._init_cml_versions w s)))
  /\ registry_wf
       (cmlenv.cml_versions (snd (cmlenv._get_latest_version w s)))
  /\ registry_wf
       (cmlenv.cml_versions (snd (cmlenv._get_version w version s))).
Proof.
  intros Hwf. pose proof (init_wf w s Hwf) as Hwf1.
  split; [exact Hwf1|]. split.
  - destruct (get_latest_state w s) as [E|E]; now rewrite E.
  - destruct (get_version_state w version s) as [E|[E|E]]; rewrite E; auto.
    now apply init_wf.
Qed.

Lemma registry_invariant_is_kept_witness :
  registry_wf (cmlenv.cml_versions cmlenv.mgr0)
  /\ registry_wf
       (cmlenv.cml_versions
          (snd (cmlenv._get_version samples.three_versions (Some "5.0")
                  cmlenv.mgr0))).
Proof.
  assert (H0 : registry_wf (cmlenv.cml_versions cmlenv.mgr0))
    by (split; constructor).
  split; [exact H0|].
  apply (registry_invariant_is_kept samples.three_versions cmlenv.mgr0
           (Some "5.0") H0).
Defined.

(** X22. Asking for a version by name, after the population step that the
    access runs: if the name is a key of the registry the environment stored
    under it is returned, and its version is the name asked for; if it is
    not, [KeyError] is raised. Either way the state is the one the population
    step left. *)
Theorem get_version_by_name
    (w : cmlenv.world) (s s1 : cmlenv.mgr) (name : string) :
  registry_wf (cmlenv.cml_versions s) ->
  (cmlenv.cml_versions s <> [] \/ cmlenv.did_init s = false) ->
  cmlenv._init_cml_versions w s = (Ok tt, s1) ->
  str_truthy name = true ->
  name <> "latest" ->
  match cmlenv.dict_get (cmlenv.cml_versions s1) name with
  | Some e =>
      cmlenv._get_version w (Some name) s = (Ok e, s1)
      /\ cmlenv.version e = name
  | None =>
      cmlenv._get_version w (Some name) s
      = (Raise (KeyError "Invalid CML version requested"), s1)
  end.
Proof.
  intros Hwf Hguard Hinit Hname Hlatest.
  assert (Hstep : cmlenv.init_or_fail w s = (Ok tt, s1))
    by now rewrite init_or_fail_runs.
  assert (Hwf1 : registry_wf (cmlenv.cml_versions s1)).
  { pose proof (init_wf w s Hwf) as H. now rewrite Hinit in H. }
  unfold cmlenv._get_version. rewrite bind_eq, Hstep.
  unfold str_or. rewrite Hname.
  destruct (String.eqb_spec name "latest") as [E|_]; [contradiction|].
  rewrite bind_eq. unfold get_state.
  destruct (cmlenv.dict_get (cmlenv.cml_versions s1) name) as [e|] eqn:Eg;
    simpl.
  - unfold cmlenv.registry_getitem. rewrite Eg. split; [reflexivity|].
    exact (dict_get_wf _ _ _ Hwf1 Eg).
  - reflexivity.
Qed.

Lemma get_version_by_name_witness :
  (exists e s1,
     cmlenv._get_version samples.three_versions (Some "5.0") cmlenv.mgr0
     = (Ok e, s1)
     /\ cmlenv.version e = "5.0")
  /\ (exists s1,
        cmlenv._get_version samples.three_versions (Some "5") cmlenv.mgr0
        = (Raise (KeyError "Invalid CML version requested"), s1)).
Proof.
  assert (H0 : registry_wf (cmlenv.cml_versions cmlenv.mgr0))
    by (split; constructor).
  split.
  - pose proof (get_version_by_name samples.three_versions cmlenv.mgr0
                  (snd (cmlenv._init_cml_versions samples.three_versions
                          cmlenv.mgr0)) "5.0"
                  H0 (or_intror eq_refl) eq_refl eq_refl
                  ltac:(discriminate)) as H.
    vm_compute cmlenv.dict_get in H.
    destruct H as [H1 H2]. eexists. eexists. split; [exact H1|exact H2].
  - pose proof (get_version_by_name samples.three_versions cmlenv.mgr0
                  (snd (cmlenv._init_cml_versions samples.three_versions
                          cmlenv.mgr0)) "5"
                  H0 (or_intror eq_refl) eq_refl eq_refl
                  ltac:(discriminate)) as H.
    vm_compute cmlenv.dict_get in H. eexists. exact H.
Defined.

(** X23. From a registry that has its invariant, whatever environment an
    access returns is registered, after the access, under its own version. *)
Theorem accessed_environment_is_registered
    (w : cmlenv.world) (s s' : cmlenv.mgr) (version : option string)
    (e : cmlenv.CMLEnv) :
  registry_wf (cmlenv.cml_versions s) ->
  (cmlenv._get_latest_version w s = (Ok e, s') ->
   cmlenv.dict_get (cmlenv.cml_versions s') (cmlenv.version e) = Some e)
  /\ (cmlenv._get_version w version s = (Ok e, s') ->
      cmlenv.dict_get (cmlenv.cml_versions s') (cmlenv.version e) = Some e).
Proof.
  intros Hwf. split.
  - intros H. now apply (get_latest_registered w s s' e Hwf).
  - intros Hget. destruct (guard_cases s) as [[H1 H2]|H].
    + destruct (access_after_empty_init w s version H1 H2) as [_ E].
      rewrite E in Hget. discriminate.
    + unfold cmlenv._get_version in Hget.
      rewrite bind_eq, (init_or_fail_after w s H) in Hget.
      pose proof (init_wf w s Hwf) as Hwf1.
      destruct (String.eqb _ "latest").
      * now apply (get_latest_registered w _ s' e Hwf1).
      * rewrite bind_eq in Hget. unfold get_state in Hget.
        destruct (cmlenv.dict_get _ _) eqn:Eg; simpl in Hget;
          [|discriminate].
        apply registry_getitem_ok in Hget. destruct Hget as [-> Hg].
        unfold cmlenv.version. now rewrite (dict_get_wf _ _ _ Hwf1 Hg).
Qed.

Lemma accessed_environment_is_registered_witness :
  exists e s',
    cmlenv._get_latest_version samples.three_versions cmlenv.mgr0
    = (Ok e, s')
    /\ cmlenv.dict_get (cmlenv.cml_versions s') (cmlenv.version e) = Some e.
Proof.
  destruct (cmlenv._get_latest_version samples.three_versions cmlenv.mgr0)
    as [[e|x] s'] eqn:E.
  - exists e, s'. split; [reflexivity|].
    destruct (accessed_environment_is_registered samples.three_versions
                cmlenv.mgr0 s' None e (conj (Forall_nil _) (NoDup_nil _)))
      as [H _].
    exact (H E).
  - vm_compute in E. discriminate E.
Defined.

(** X24. In a world that does not change, running the population step
    again leaves a registry that has its invariant as the first run left it,
    so an access that finds this registry not empty returns what the access
    before it returned. *)
Theorem repopulation_is_stable
    (w : cmlenv.world) (s : cmlenv.mgr) :
  registry_wf (cmlenv.cml_versions s) ->
  cmlenv.cml_versions
    (snd (cmlenv._init_cml_versions w
            (snd (cmlenv._init_cml_versions w s))))
  = cmlenv.cml_versions (snd (cmlenv._init_cml_versions w s))
  /\ ((cmlenv.cml_versions s <> [] \/ cmlenv.did_init s = false) ->
      cmlenv.cml_versions (snd (cmlenv._init_cml_versions w s)) <> [] ->
      fst (cmlenv._get_latest_version w
             (snd (cmlenv._get_latest_version w s)))
      = fst (cmlenv._get_latest_version w s)).
Proof.
  intros Hwf.
  assert (Hstable :
            cmlenv.cml_versions
              (snd (cmlenv._init_cml_versions w
                      (snd (cmlenv._init_cml_versions w s))))
            = cmlenv.cml_versions (snd (cmlenv._init_cml_versions w s))).
  { destruct (init_state w (snd (cmlenv._init_cml_versions w s)))
      as (E2 & _).
    destruct (init_state w s) as (E1 & _).
    rewrite E2, E1. now apply register_all_idempotent. }
  split; [exact Hstable|].
  intros Hguard Hne.
  set (s1 := snd (cmlenv._init_cml_versions w s)) in *.
  assert (Hs1 : snd (cmlenv._get_latest_version w s) = s1).
  { rewrite (get_latest_after_init w s _ (init_or_fail_after w s Hguard)).
    destruct (LooseVersion.sorted_reverse _); [reflexivity|].
    apply registry_getitem_state. }
  rewrite Hs1.
  rewrite (get_latest_after_init w s1 _
             (init_or_fail_after w s1 (or_introl Hne))).
  rewrite (get_latest_after_init w s _ (init_or_fail_after w s Hguard)).
  fold s1. rewrite Hstable.
  destruct (LooseVersion.sorted_reverse _) as [|v r]; [reflexivity|].
  unfold cmlenv.registry_getitem. rewrite Hstable.
  now destruct (cmlenv.dict_get _ _).
Qed.

Lemma repopulation_is_stable_witness :
  fst (cmlenv._get_latest_version samples.three_versions
         (snd (cmlenv._get_latest_version samples.three_versions
                 cmlenv.mgr0)))
  = fst (cmlenv._get_latest_version samples.three_versions cmlenv.mgr0).
Proof.
  destruct (repopulation_is_stable samples.three_versions cmlenv.mgr0
              (conj (Forall_nil _) (NoDup_nil _))) as [_ H].
  apply H.
  - right. reflexivity.
  - vm_compute. discriminate.
Defined.

(** X25. What the population step writes: a key that is the version of no
    entry of the source (the filtered configuration, or the discovery when
    nothing is configured) keeps its environment; the version of an entry
    maps to the environment of the last entry that has this version, so that
    of two entries with one version the later one wins; no key is removed. *)
Theorem population_overwrites_by_version
    (w : cmlenv.world) (s s1 : cmlenv.mgr) :
  cmlenv._init_cml_versions w s = (Ok tt, s1) ->
  (forall k,
     names_version k (population_source w) = false ->
     cmlenv.dict_get (cmlenv.cml_versions s1) k
     = cmlenv.dict_get (cmlenv.cml_versions s) k)
  /\ (forall l1 c l2,
        population_source w = (l1 ++ c :: l2)%list ->
        names_version (cmlenv.cfg_version c) l2 = false ->
        cmlenv.dict_get (cmlenv.cml_versions s1) (cmlenv.cfg_version c)
        = Some (env_of w c))
  /\ (forall k,
        In k (map fst (cmlenv.cml_versions s)) ->
        In k (map fst (cmlenv.cml_versions s1))).
Proof.
  intros Hinit. destruct (init_state w s) as (E & _).
  rewrite Hinit in E. simpl in E. rewrite E. split; [|split].
  - intros k Hk. now apply register_all_get_other.
  - intros l1 c l2 Hsrc Hl2. rewrite Hsrc.
    now apply register_all_get_last.
  - intros k Hk. now apply register_all_keeps_keys.
Qed.

(** The version 5.0 configured twice, each time with a directory that
    exists: the registry holds the second one. *)
Lemma population_overwrites_by_version_witness :
  cmlenv.dict_get
    (cmlenv.cml_versions
       (snd (cmlenv._init_cml_versions samples.twice_configured
               cmlenv.mgr0))) "5.0"
  = Some (env_of samples.twice_configured
            (cmlenv.mk_cfg "5.0" (Some "/scratch/caelus-5.0") None)).
Proof.
  destruct (population_overwrites_by_version samples.twice_configured
              cmlenv.mgr0
              (snd (cmlenv._init_cml_versions samples.twice_configured
                      cmlenv.mgr0)) eq_refl) as (_ & H & _).
  apply (H [cmlenv.mk_cfg "5.0" None None]
           (cmlenv.mk_cfg "5.0" (Some "/scratch/caelus-5.0") None) []);
    reflexivity.
Defined.

(* ===================================================================== *)
(** * Properties of [caelus.version] *)
(* ===================================================================== *)

Section StripFacts.

Import version.

Lemma all_space_rstrip (s : string) : all_space s = true -> rstrip s = "".
Proof. destruct s; simpl; auto. intros ->. reflexivity. Qed.

Lemma rstrip_all_space (s : string) :
  all_space (rstrip s) = all_space s.
Proof.
  induction s as [|c r IH]; [reflexivity|].
  cbn [rstrip]. destruct (all_space (String c r)) eqn:E; [reflexivity|].
  cbn [all_space] in *. rewrite IH. exact E.
Qed.

Lemma rstrip_idempotent (s : string) : rstrip (rstrip s) = rstrip s.
Proof.
  induction s as [|c r IH]; [reflexivity|].
  cbn [rstrip]. destruct (all_space (String c r)) eqn:E; [reflexivity|].
  cbn [rstrip].
  assert (E' : all_space (String c (rstrip r)) = false).
  { cbn [all_space] in *. now rewrite rstrip_all_space. }
  rewrite E'. now rewrite IH.
Qed.

Lemma lstrip_idempotent (s : string) : lstrip (lstrip s) = lstrip s.
Proof.
  induction s as [|c r IH]; [reflexivity|].
  cbn [lstrip]. destruct (is_space c) eqn:E; [exact IH|].
  cbn [lstrip]. now rewrite E.
Qed.

(** Stripping on the right leaves the left end as it is. *)
Lemma lstrip_rstrip_lstrip (s : string) :
  lstrip (rstrip (lstrip s)) = rstrip (lstrip s).
Proof.
  induction s as [|c r IH]; [reflexivity|].
  cbn [lstrip]. destruct (is_space c) eqn:E; [exact IH|].
  cbn [rstrip]. destruct (all_space (String c r)); [reflexivity|].
  cbn [lstrip]. now rewrite E.
Qed.

Lemma strip_idempotent (s : string) : strip (strip s) = strip s.
Proof.
  unfold strip. now rewrite lstrip_rstrip_lstrip, rstrip_idempotent.
Qed.

End StripFacts.



(** X27. When the module directory and the starting directory can be
    entered, the command is run in the module directory, and an exit status
    other than zero gives the fixed version ["v0.0.2"], whatever the command
    printed. *)
Theorem git_describe_falls_back
    (w : version.world) (cwd out : string) (status : Z) :
  version.can_enter w (version.module_dir w) = true ->
  version.can_enter w cwd = true ->
  version.run w (version.module_dir w) version.cmd = Ok (status, out) ->
  status <> 0%Z ->
  version.git_describe w cwd = (Ok "v0.0.2", cwd).
Proof.
  intros Hmod Hcwd Hrun Hst.
  unfold version.git_describe, bind, get_state, try_finally, version.chdir,
    dictfile.lift, ret.
  rewrite Hmod, Hrun.
  destruct (Z.eqb_spec status 0); [contradiction|]. now rewrite Hcwd.
Qed.

Lemma git_describe_falls_back_witness :
  version.git_describe
    (version.mk_world "/src/caelus" (fun _ => true)
       (fun _ _ => Ok (128%Z, "fatal: not a git repository")))
    "/work"
  = (Ok "v0.0.2", "/work").
Proof.
  apply (git_describe_falls_back
           (version.mk_world "/src/caelus" (fun _ => true)
              (fun _ _ => Ok (128%Z, "fatal: not a git repository")))
           "/work" "fatal: not a git repository" 128 eq_refl eq_refl eq_refl).
  discriminate.
Defined.

(** X28. With exit status zero the version is the output of the command
    without the white space around it: stripping it again on either side
    changes nothing. Output that is not ASCII after stripping raises
    [ValueError] instead; the fixed version is not used then. *)
Theorem git_describe_strips_output
    (w : version.world) (cwd out : string) :
  version.can_enter w (version.module_dir w) = true ->
  version.can_enter w cwd = true ->
  version.run w (version.module_dir w) version.cmd = Ok (0%Z, out) ->
  (version.is_ascii (version.strip out) = true ->
   version.git_describe w cwd = (Ok (version.strip out), cwd)
   /\ version.lstrip (version.strip out) = version.strip out
   /\ version.rstrip (version.strip out) = version.strip out)
  /\ (version.is_ascii (version.strip out) = false ->
      exists msg,
        version.git_describe w cwd = (Raise (ValueError msg), cwd)).
Proof.
  intros Hmod Hcwd Hrun.
  unfold version.git_describe, bind, get_state, try_finally, version.chdir,
    dictfile.lift, ret, version.decode_ascii.
  rewrite Hmod, Hrun. cbn [Z.eqb].
  split; intros Ha; rewrite Ha, Hcwd.
  - split; [reflexivity|]. unfold version.strip. split.
    + apply lstrip_rstrip_lstrip.
    + apply rstrip_idempotent.
  - eexists. reflexivity.
Qed.

Lemma git_describe_strips_output_witness :
  version.git_describe samples.tagged_tree "/work"
  = (Ok "v0.1.0-3-gabc1234", "/work").
Proof.
  destruct (git_describe_strips_output samples.tagged_tree "/work"
              ("v0.1.0-3-gabc1234" ++ String (ascii_of_nat 10) EmptyString)
              eq_refl eq_refl eq_refl) as [H _].
  destruct (H eq_refl) as [H1 _]. exact H1.
Defined.
